(** * Topology controllers of the SSSD test framework

    A shallow embedding of [sssd_test_framework/topology_controllers.py].

    The controllers drive remote hosts: they remove and back up files on the
    client, execute commands over a connection, and record host snapshots in
    the controller's [backup_data] dictionary.  Every such call either returns
    or raises, so the module is embedded in a small state-and-exception monad
    whose state is the controller object together with the trace of the calls
    issued so far.  What a remote call answers is not decided by this module:
    it is given by an environment [Env] that maps the history of calls to the
    answer of the last one. *)

From Stdlib Require Import ZArith.
From stdpp Require Import base strings gmap list.

Local Open Scope string_scope.
Local Open Scope list_scope.

(** ** Data model *)

(** A host participant ([ClientHost], [IPAHost], [ADHost], [SambaHost]).  The
    module reads only these attributes.  Python hashes the host object by
    identity; [host_id] stands for that identity. *)
Record Host := {
  host_id : nat;
  hostname : string;
  domain : string;
  adminpw : string;
}.

(** [pytest_mh.conn.ProcessResult]. *)
Record ProcessResult := {
  rc : Z;
  stdout : string;
  stderr : string;
}.

(** Exceptions.  [ProcessError] is what a failed command raises, and carries
    the command's output; every other exception is an [OtherError]. *)
Inductive Error :=
| ProcessError (code : Z) (out err : string)
| OtherError (msg : string).

(** What a call does: it returns a value or it raises. *)
Inductive Res (A : Type) :=
| Ret (a : A)
| Raise (e : Error).
Arguments Ret {A} a.
Arguments Raise {A} e.

(** What [host.backup()] returns ([Any | None]). *)
Definition Snapshot := option string.

(** Modelled from the spec: [SSSDMultihostConfig] lives in [config.py]; the
    module reads only its "set of externally-provisioned topology names". *)
Record SSSDMultihostConfig := {
  provisioned_topologies : gset string;
}.

(** The calls the module issues, in the order in which it issues them. *)
Inductive Event :=
| LogInfo (msg : string)
| FsRm (h : Host) (path : string)
| FsBackup (h : Host) (path : string)
| ConnExec (h : Host) (argv : list string) (input : option string)
| Kinit (h : Host)
| HostBackup (h : Host)
| Sleep (seconds : nat)
| RestoreVanilla
| SuperTeardown
| SuperTopologyTeardown.

(** The attributes a controller inherits from [BackupTopologyController]
    (pytest_mh): its name, the multihost configuration, the hosts of the
    topology and the dictionary from host to snapshot. *)
Record BackupTopologyController := {
  name : string;
  multihost : SSSDMultihostConfig;
  hosts : list Host;
  backup_data : gmap nat Snapshot;
}.

(** [ProvisionedBackupTopologyController]: the inherited attributes and the
    [provisioned] flag. *)
Record Controller := {
  base :> BackupTopologyController;
  provisioned : bool;
}.

(** The classes of the module that can be instantiated. *)
Inductive Class :=
| ClientTopologyController
| LDAPTopologyController
| IPATopologyController
| ADTopologyController
| SambaTopologyController
| IPATrustADTopologyController
| IPATrustSambaTopologyController
| IPATrustIPATopologyController.

(** The base class named in each [class] statement; [None] stands for
    [ProvisionedBackupTopologyController]. *)
Definition parent (k : Class) : option Class :=
  match k with
  | SambaTopologyController => Some ADTopologyController
  | IPATrustSambaTopologyController => Some IPATrustADTopologyController
  | _ => None
  end.

(** Whether the body of the class defines [topology_setup] itself. *)
Definition defines_topology_setup (k : Class) : bool :=
  match k with
  | IPATopologyController | ADTopologyController
  | IPATrustADTopologyController | IPATrustIPATopologyController => true
  | _ => false
  end.


(** Whether [topology_setup] resolves to a method of this module, through the
    class itself or its base class. *)
Definition has_topology_setup (k : Class) : bool :=
  defines_topology_setup k ||
  match parent k with
  | Some p => defines_topology_setup p
  | None => false
  end.

(** ** The monad *)

(** The answers of the remote side.  Each function receives the trace up to
    and including the call that is being answered. *)
Record Env := {
  exec_reply : list Event -> Res ProcessResult;
  backup_reply : list Event -> Res Snapshot;
  call_reply : list Event -> Res unit;
}.

Record State := {
  ctrl : Controller;
  trace : list Event;
}.

Definition M (A : Type) : Type := State -> Res A * State.

Definition ret {A} (a : A) : M A := fun st => (Ret a, st).

Definition raise {A} (e : Error) : M A := fun st => (Raise e, st).

Definition bind {A B} (m : M A) (k : A -> M B) : M B :=
  fun st =>
    match m st with
    | (Ret a, st') => k a st'
    | (Raise e, st') => (Raise e, st')
    end.

Notation "x <- c1 ;; c2" := (bind c1 (fun x => c2))
  (at level 100, c1 at next level, right associativity).
Notation "c1 ;; c2" := (bind c1 (fun _ => c2))
  (at level 100, right associativity).

(** [self]. *)
Definition get_self : M Controller := fun st => (Ret (ctrl st), st).

(** Record a call that cannot raise. *)
Definition emit (ev : Event) : M unit :=
  fun st => (Ret tt, {| ctrl := ctrl st; trace := trace st ++ [ev] |}).

(** Record a call and let the environment answer it. *)
Definition perform {A} (reply : list Event -> Res A) (ev : Event) : M A :=
  fun st =>
    let tr := trace st ++ [ev] in
    (reply tr, {| ctrl := ctrl st; trace := tr |}).

(** [self.backup_data[h] = v]. *)
Definition set_backup_data (h : Host) (v : Snapshot) : M unit :=
  fun st =>
    let c := ctrl st in
    (Ret tt,
     {| ctrl := {| base := {| name := name c;
                              multihost := multihost c;
                              hosts := hosts c;
                              backup_data := <[host_id h := v]> (backup_data c) |};
                   provisioned := provisioned c |};
        trace := trace st |}).

(** Run a computation from a controller and a trace. *)
Definition run {A} (m : M A) (c : Controller) (tr : list Event) : Res A * State :=
  m {| ctrl := c; trace := tr |}.

(** ** Helpers on strings and traces *)

(** The double-quote character. *)
Definition dquote : string := String (Ascii.ascii_of_nat 34) EmptyString.

(** [pat] occurs in [s]. *)
Fixpoint contains (pat s : string) : bool :=
  String.prefix pat s ||
  match s with
  | EmptyString => false
  | String _ s' => contains pat s'
  end.

Definition is_restore_vanilla (ev : Event) : bool :=
  match ev with RestoreVanilla => true | _ => false end.

Definition is_sleep (ev : Event) : bool :=
  match ev with Sleep _ => true | _ => false end.

Definition is_exec (ev : Event) : bool :=
  match ev with ConnExec _ _ _ => true | _ => false end.

Definition is_host_backup (ev : Event) : bool :=
  match ev with HostBackup _ => true | _ => false end.

(** The calls that enrol the client into the IPA domain: removing the
    Kerberos files, backing up the ipa-client files, and [realm join]. *)
Definition is_join_action (ev : Event) : bool :=
  match ev with
  | FsRm _ _ | FsBackup _ _ => true
  | ConnExec _ ("realm" :: "join" :: _) _ => true
  | _ => false
  end.

(** The calls of a trust creation: [ipa trust-add]. *)
Definition is_trust_add (ev : Event) : bool :=
  match ev with
  | ConnExec _ ("ipa" :: "trust-add" :: _) _ => true
  | _ => false
  end.

Definition count (p : Event -> bool) (tr : list Event) : nat :=
  length (filter (fun ev => p ev = true) tr).

(** The log line of a setup that finds its topology provisioned. *)
Definition is_provisioned_log (ev : Event) : bool :=
  match ev with
  | LogInfo msg => String.prefix "Topology '" msg
  | _ => false
  end.

(** ** Relating the state before and after a computation *)

(** The attributes that no method of the module assigns after [init]. *)
Definition same_config (c c' : Controller) : Prop :=
  name c' = name c /\ multihost c' = multihost c /\ hosts c' = hosts c /\
  provisioned c' = provisioned c.

(** [st'] is reached from [st] by calls that all satisfy [P] and by
    assignments to [backup_data] only. *)
Definition extends (P : Event -> bool) (st st' : State) : Prop :=
  same_config (ctrl st) (ctrl st') /\
  dom (backup_data (ctrl st)) ⊆ dom (backup_data (ctrl st')) /\
  exists added, trace st' = trace st ++ added /\ forallb P added = true.

(** Started from a controller configured as [c0], the computation [m] issues
    only calls that satisfy [P] and keeps the configuration. *)
Definition steps {A} (c0 : Controller) (P : Event -> bool) (m : M A) : Prop :=
  forall st, same_config c0 (ctrl st) -> extends P st (m st).2.

(** Started from a controller configured as [c0], the computation [m] issues
    the calls of [L] in order, up to the first one that raises, and after the
    last of them only calls that satisfy [P]. *)
Definition issues {A} (c0 : Controller) (L : list Event) (P : Event -> bool)
  (m : M A) : Prop :=
  forall st, same_config c0 (ctrl st) ->
    (exists n e, 1 <= n <= length L /\ (m st).1 = Raise e /\
                 trace (m st).2 = trace st ++ take n L) \/
    (exists rest, trace (m st).2 = trace st ++ L ++ rest /\
                  forallb P rest = true).

(** Started from a controller configured as [c0], the computation [m], when
    it returns, leaves a state that satisfies [Q]. *)
Definition ensures {A} (c0 : Controller) (Q : State -> Prop) (m : M A) : Prop :=
  forall st, same_config c0 (ctrl st) ->
    forall a, (m st).1 = Ret a -> Q (m st).2.

(** [backup_data] has an entry for the host [h]. *)
Definition has_snapshot (h : Host) (st : State) : Prop :=
  is_Some (backup_data (ctrl st) !! host_id h).

(** ** The calls on hosts and on the inherited controller *)

Section Program.

Context (env : Env).

(** [try: m  except Exception as e: handler e]. *)
Definition try_except {A} (m : M A) (handler : Error -> M A) : M A :=
  fun st =>
    match m st with
    | (Ret a, st') => (Ret a, st')
    | (Raise e, st') => handler e st'
    end.

(** [self.logger.info(msg)]. *)
Definition logger_info (msg : string) : M unit := emit (LogInfo msg).

(** [h.fs.rm(path)]. *)
Definition fs_rm (h : Host) (path : string) : M unit :=
  perform (call_reply env) (FsRm h path).

(** [h.fs.backup(path)]. *)
Definition fs_backup (h : Host) (path : string) : M unit :=
  perform (call_reply env) (FsBackup h path).

(** [h.conn.exec(argv, input=input)]. *)
Definition conn_exec (h : Host) (argv : list string) (input : option string)
  : M ProcessResult :=
  perform (exec_reply env) (ConnExec h argv input).

(** [h.kinit()]. *)
Definition kinit (h : Host) : M unit := perform (call_reply env) (Kinit h).

(** [h.backup()]. *)
Definition host_backup (h : Host) : M Snapshot :=
  perform (backup_reply env) (HostBackup h).

(** [time.sleep(seconds)]. *)
Definition time_sleep (seconds : nat) : M unit := emit (Sleep seconds).

(** Modelled from the spec: [BackupTopologyController.restore_vanilla]
    belongs to pytest_mh; it is the "restore-to-pristine rollback" of the
    host set, recorded as one call. *)
Definition restore_vanilla : M unit := emit RestoreVanilla.

(** Modelled from the spec: [BackupTopologyController.teardown] belongs to
    pytest_mh; it is the "inherited per-test restore", recorded as one call. *)
Definition BackupTopologyController_teardown : M unit := emit SuperTeardown.

(** Modelled from the spec: [BackupTopologyController.topology_teardown]
    belongs to pytest_mh; it is the "inherited teardown (which removes
    topology-level state)", recorded as one call. *)
Definition BackupTopologyController_topology_teardown : M unit :=
  emit SuperTopologyTeardown.

(** [for host in hs: self.backup_data[host] = host.backup()]. *)
Fixpoint backup_hosts (hs : list Host) : M unit :=
  match hs with
  | [] => ret tt
  | h :: hs' =>
      data <- host_backup h ;;
      set_backup_data h data ;;
      backup_hosts hs'
  end.

(** Modelled from the spec: [BackupTopologyController.topology_setup] belongs
    to pytest_mh; it is the inherited "set up and snapshot" step, which
    "captures the resulting state of all involved hosts as the clean
    baseline": every host of the topology is backed up and the snapshot is
    stored in [backup_data]. *)
Definition BackupTopologyController_topology_setup : M unit :=
  self <- get_self ;;
  backup_hosts (hosts self).

(** Modelled from the spec: the decorator
    [BackupTopologyController.restore_vanilla_on_error] belongs to pytest_mh;
    it is the "error-handling decorator that wraps a setup routine to
    auto-rollback on exception": any error triggers the restore-to-pristine
    rollback "before the error propagates". *)
Definition restore_vanilla_on_error {A} (method : M A) : M A :=
  try_except method (fun e => restore_vanilla ;; raise e).

(** The error output of [e] matches [match_stderr]. *)
Definition error_matches (match_stderr : string) (e : Error) : bool :=
  match e with
  | ProcessError _ _ err => contains match_stderr err
  | OtherError _ => false
  end.

(** Modelled from the spec: the loop of [retry_command], with [remaining]
    retries still allowed.  An error whose output does not match "is not
    retried and propagates immediately"; a matching one is retried after
    [delay] seconds, and is "surfaced as failure" once the retries are
    exhausted. *)
Fixpoint retry_loop {A} (remaining delay : nat) (match_stderr : string)
  (func : M A) : M A :=
  try_except func (fun e =>
    match remaining with
    | 0 => raise e
    | S n =>
        if error_matches match_stderr e
        then time_sleep delay ;; retry_loop n delay match_stderr func
        else raise e
    end).

(** Modelled from the spec: the decorator [retry_command] of [misc/ssh.py],
    a "retry-with-predicate helper taking (operation, max attempts, delay,
    error-matcher) and returning the operation's result or the final error";
    the operation "is retried up to [max_retries] times with a [delay]-second
    delay between attempts". *)
Definition retry_command {A} (max_retries delay : nat) (match_stderr : string)
  (func : M A) : M A :=
  retry_loop max_retries delay match_stderr func.

(** ** ProvisionedBackupTopologyController *)

(** [__init__]: [super().__init__()] leaves the inherited attributes [b]. *)
Definition ProvisionedBackupTopologyController___init__
  (b : BackupTopologyController) : Controller :=
  {| base := b; provisioned := false |}.

(** [init]: [super_init] is what [super().init( *args, **kwargs)] does to the
    inherited attributes. *)
Definition ProvisionedBackupTopologyController_init
  (super_init : BackupTopologyController -> BackupTopologyController)
  (self : Controller) : Controller :=
  let b := super_init (base self) in
  {| base := b;
     provisioned := bool_decide (name b ∈ provisioned_topologies (multihost b)) |}.

Definition ProvisionedBackupTopologyController_topology_teardown : M unit :=
  self <- get_self ;;
  if provisioned self then ret tt
  else BackupTopologyController_topology_teardown.

Definition ProvisionedBackupTopologyController_teardown : M unit :=
  self <- get_self ;;
  if provisioned self then restore_vanilla
  else BackupTopologyController_teardown.

(** ** IPATopologyController *)

(** The function under the decorator. *)
Definition IPATopologyController_topology_setup_wrapped (client ipa : Host) : M unit :=
  self <- get_self ;;
  if provisioned self then
    logger_info ("Topology '" +:+ name self +:+ "' is already provisioned")
  else
    logger_info ("Enrolling " +:+ hostname client +:+ " into " +:+ domain ipa) ;;
    fs_rm client "/etc/krb5.conf" ;;
    fs_rm client "/etc/krb5.keytab" ;;
    fs_backup client "/etc/ipa" ;;
    fs_backup client "/var/lib/ipa-client" ;;
    conn_exec client ["realm"; "join"; domain ipa] (Some (adminpw ipa)) ;;
    BackupTopologyController_topology_setup.

(** [@BackupTopologyController.restore_vanilla_on_error def topology_setup]. *)
Definition IPATopologyController_topology_setup (client ipa : Host) : M unit :=
  restore_vanilla_on_error (IPATopologyController_topology_setup_wrapped client ipa).

(** ** ADTopologyController *)

(** The function under the decorator. *)
Definition ADTopologyController_topology_setup_wrapped (client provider : Host) : M unit :=
  self <- get_self ;;
  if provisioned self then
    logger_info ("Topology '" +:+ name self +:+ "' is already provisioned")
  else
    logger_info ("Enrolling " +:+ hostname client +:+ " into " +:+ domain provider) ;;
    fs_rm client "/etc/krb5.conf" ;;
    fs_rm client "/etc/krb5.keytab" ;;
    conn_exec client ["realm"; "join"; domain provider] (Some (adminpw provider)) ;;
    BackupTopologyController_topology_setup.

(** [@BackupTopologyController.restore_vanilla_on_error def topology_setup]. *)
Definition ADTopologyController_topology_setup (client provider : Host) : M unit :=
  restore_vanilla_on_error (ADTopologyController_topology_setup_wrapped client provider).

(** ** IPATrustADTopologyController *)

Definition cifs_error : string :=
  "CIFS server communication error: code " +:+ dquote +:+ "3221225581" +:+ dquote.

Definition IPATrustADTopologyController_trust_add (ipa trusted : Host)
  : M ProcessResult :=
  retry_command 20 5 cifs_error (
    conn_exec ipa
      ["ipa"; "trust-add"; domain trusted; "--admin"; "Administrator"; "--password"]
      (Some (adminpw trusted))).

(** The function under the decorator. *)
Definition IPATrustADTopologyController_topology_setup_wrapped
  (client ipa trusted : Host) : M unit :=
  self <- get_self ;;
  if provisioned self then
    logger_info ("Topology '" +:+ name self +:+ "' is already provisioned")
  else
    logger_info ("Establishing trust between " +:+ domain ipa +:+ " and "
                 +:+ domain trusted) ;;
    kinit ipa ;;
    IPATrustADTopologyController_trust_add ipa trusted ;;
    self <- get_self ;;
    (if bool_decide ("ipa" ∈ provisioned_topologies (multihost self)) then ret tt
     else
       logger_info ("Enrolling " +:+ hostname client +:+ " into " +:+ domain ipa) ;;
       fs_rm client "/etc/krb5.conf" ;;
       fs_rm client "/etc/krb5.keytab" ;;
       fs_backup client "/etc/ipa" ;;
       fs_backup client "/var/lib/ipa-client" ;;
       conn_exec client ["realm"; "join"; domain ipa] (Some (adminpw ipa)) ;;
       ret tt) ;;
    BackupTopologyController_topology_setup.

(** [@BackupTopologyController.restore_vanilla_on_error def topology_setup]. *)
Definition IPATrustADTopologyController_topology_setup
  (client ipa trusted : Host) : M unit :=
  restore_vanilla_on_error (IPATrustADTopologyController_topology_setup_wrapped client ipa trusted).

(** ** IPATrustIPATopologyController *)

(** The function under the decorator. *)
Definition IPATrustIPATopologyController_topology_setup_wrapped
  (client ipa trusted : Host) : M unit :=
  self <- get_self ;;
  if provisioned self then
    logger_info ("Topology '" +:+ name self +:+ "' is already provisioned")
  else
    logger_info "Adding COPR and updating packages" ;;
    conn_exec ipa ["dnf"; "copr"; "enable"; "abbra/wip-ipa-trust"; "-y"] None ;;
    conn_exec client ["dnf"; "copr"; "enable"; "abbra/wip-ipa-trust"; "-y"] None ;;
    conn_exec trusted ["dnf"; "copr"; "enable"; "abbra/wip-ipa-trust"; "-y"] None ;;
    conn_exec ipa ["dnf"; "update"; "freeipa-server"; "sssd-client"; "-y"] None ;;
    conn_exec trusted ["dnf"; "update"; "freeipa-server"; "sssd-client"; "-y"] None ;;
    conn_exec client ["dnf"; "update"; "sssd-client"; "-y"] None ;;
    conn_exec ipa ["systemctl"; "restart"; "sssd-kcm"] None ;;
    conn_exec trusted ["systemctl"; "restart"; "sssd-kcm"] None ;;
    logger_info ("Establishing trust between " +:+ domain ipa +:+ " and "
                 +:+ domain trusted) ;;
    kinit ipa ;;
    conn_exec ipa
      ["ipa"; "trust-add"; domain trusted; "--admin"; "admin"; "--password";
       "--range-type=ipa-ad-trust-posix"; "--type=ipa"; "--two-way=true"]
      (Some (adminpw trusted)) ;;
    self <- get_self ;;
    (if bool_decide ("ipa" ∈ provisioned_topologies (multihost self)) then ret tt
     else
       logger_info ("Enrolling " +:+ hostname client +:+ " into " +:+ domain ipa) ;;
       fs_rm client "/etc/krb5.conf" ;;
       fs_rm client "/etc/krb5.keytab" ;;
       fs_backup client "/etc/ipa" ;;
       fs_backup client "/var/lib/ipa-client" ;;
       conn_exec client ["realm"; "join"; domain ipa] (Some (adminpw ipa)) ;;
       ret tt) ;;
    data <- host_backup ipa ;;
    set_backup_data ipa data ;;
    data <- host_backup trusted ;;
    set_backup_data trusted data ;;
    data <- host_backup client ;;
    set_backup_data client data.

(** [@BackupTopologyController.restore_vanilla_on_error def topology_setup]. *)
Definition IPATrustIPATopologyController_topology_setup
  (client ipa trusted : Host) : M unit :=
  restore_vanilla_on_error (IPATrustIPATopologyController_topology_setup_wrapped client ipa trusted).

(** ** Method resolution *)

(** The positional arguments of [topology_setup]: [( *args)] for the classes
    that inherit it from pytest_mh, [(client, provider)] for the join
    topologies, [(client, ipa, trusted)] for the trust topologies. *)
Definition SetupArgs (k : Class) : Type :=
  match k with
  | ClientTopologyController | LDAPTopologyController => list Host
  | IPATopologyController | ADTopologyController | SambaTopologyController =>
      Host * Host
  | IPATrustADTopologyController | IPATrustSambaTopologyController
  | IPATrustIPATopologyController => Host * Host * Host
  end.

(** The hosts passed to [topology_setup]. *)
Definition passed_hosts (k : Class) : SetupArgs k -> list Host :=
  match k as k0 return SetupArgs k0 -> list Host with
  | ClientTopologyController | LDAPTopologyController => fun hs => hs
  | IPATopologyController | ADTopologyController | SambaTopologyController =>
      fun '(client, provider) => [client; provider]
  | IPATrustADTopologyController | IPATrustSambaTopologyController
  | IPATrustIPATopologyController =>
      fun '(client, ipa, trusted) => [client; ipa; trusted]
  end.

(** [k().topology_setup( *args)]: the method of the class, or of the class it
    is derived from. *)
Definition topology_setup (k : Class) : SetupArgs k -> M unit :=
  match k as k0 return SetupArgs k0 -> M unit with
  | ClientTopologyController | LDAPTopologyController =>
      fun _ => BackupTopologyController_topology_setup
  | IPATopologyController =>
      fun '(client, ipa) => IPATopologyController_topology_setup client ipa
  | ADTopologyController | SambaTopologyController =>
      fun '(client, provider) => ADTopologyController_topology_setup client provider
  | IPATrustADTopologyController | IPATrustSambaTopologyController =>
      fun '(client, ipa, trusted) =>
        IPATrustADTopologyController_topology_setup client ipa trusted
  | IPATrustIPATopologyController =>
      fun '(client, ipa, trusted) =>
        IPATrustIPATopologyController_topology_setup client ipa trusted
  end.

(** The function that [topology_setup] wraps: the function under the
    decorator, or the inherited method itself where there is no decorator. *)
Definition topology_setup_wrapped (k : Class) : SetupArgs k -> M unit :=
  match k as k0 return SetupArgs k0 -> M unit with
  | ClientTopologyController | LDAPTopologyController =>
      fun _ => BackupTopologyController_topology_setup
  | IPATopologyController =>
      fun '(client, ipa) => IPATopologyController_topology_setup_wrapped client ipa
  | ADTopologyController | SambaTopologyController =>
      fun '(client, provider) =>
        ADTopologyController_topology_setup_wrapped client provider
  | IPATrustADTopologyController | IPATrustSambaTopologyController =>
      fun '(client, ipa, trusted) =>
        IPATrustADTopologyController_topology_setup_wrapped client ipa trusted
  | IPATrustIPATopologyController =>
      fun '(client, ipa, trusted) =>
        IPATrustIPATopologyController_topology_setup_wrapped client ipa trusted
  end.

(** [k().teardown()] and [k().topology_teardown()]: no class overrides the
    methods of [ProvisionedBackupTopologyController]. *)
Definition teardown (k : Class) : M unit :=
  ProvisionedBackupTopologyController_teardown.

Definition topology_teardown (k : Class) : M unit :=
  ProvisionedBackupTopologyController_topology_teardown.

(** [k().trust_add]: only [IPATrustADTopologyController] and the class derived
    from it have the attribute. *)
Definition trust_add (k : Class) : option (Host -> Host -> M ProcessResult) :=
  match k with
  | IPATrustADTopologyController | IPATrustSambaTopologyController =>
      Some IPATrustADTopologyController_trust_add
  | _ => None
  end.

End Program.

(** ** Statements about classes *)

(** The class [k] has exactly the behaviour of
    [ProvisionedBackupTopologyController]: it inherits the set-up-and-snapshot
    step and both teardown methods, has no [trust_add], and its setup issues
    neither a join nor a trust creation. *)
Definition base_behaviour (env : Env) (k : Class) : Prop :=
  (forall args, topology_setup env k args =
                BackupTopologyController_topology_setup env) /\
  teardown k = ProvisionedBackupTopologyController_teardown /\
  topology_teardown k = ProvisionedBackupTopologyController_topology_teardown /\
  trust_add env k = None /\
  forall args c tr,
    exists added,
      trace (run (topology_setup env k args) c tr).2 = tr ++ added /\
      count is_join_action added = 0 /\ count is_trust_add added = 0.

(** ** Expected traces *)

(** [n] failed attempts of the call [ev], each followed by the delay. *)
Fixpoint failed_attempts (ev : Event) (delay n : nat) : list Event :=
  match n with
  | 0 => []
  | S n' => ev :: Sleep delay :: failed_attempts ev delay n'
  end.

(** The calls that enrol [client] into the domain of [ipa]. *)
Definition ipa_join_calls (client ipa : Host) : list Event :=
  [FsRm client "/etc/krb5.conf";
   FsRm client "/etc/krb5.keytab";
   FsBackup client "/etc/ipa";
   FsBackup client "/var/lib/ipa-client";
   ConnExec client ["realm"; "join"; domain ipa] (Some (adminpw ipa))].

(** What [IPATrustIPATopologyController.topology_setup] does before it
    creates the trust. *)
Definition ipa_trust_preparation (client ipa trusted : Host) : list Event :=
  [LogInfo "Adding COPR and updating packages";
   ConnExec ipa ["dnf"; "copr"; "enable"; "abbra/wip-ipa-trust"; "-y"] None;
   ConnExec client ["dnf"; "copr"; "enable"; "abbra/wip-ipa-trust"; "-y"] None;
   ConnExec trusted ["dnf"; "copr"; "enable"; "abbra/wip-ipa-trust"; "-y"] None;
   ConnExec ipa ["dnf"; "update"; "freeipa-server"; "sssd-client"; "-y"] None;
   ConnExec trusted ["dnf"; "update"; "freeipa-server"; "sssd-client"; "-y"] None;
   ConnExec client ["dnf"; "update"; "sssd-client"; "-y"] None;
   ConnExec ipa ["systemctl"; "restart"; "sssd-kcm"] None;
   ConnExec trusted ["systemctl"; "restart"; "sssd-kcm"] None;
   LogInfo ("Establishing trust between " +:+ domain ipa +:+ " and "
            +:+ domain trusted);
   Kinit ipa].

(** The command with which [IPATrustIPATopologyController.topology_setup]
    creates the trust. *)
Definition ipa_trust_add_call (ipa trusted : Host) : Event :=
  ConnExec ipa
    ["ipa"; "trust-add"; domain trusted; "--admin"; "admin"; "--password";
     "--range-type=ipa-ad-trust-posix"; "--type=ipa"; "--two-way=true"]
    (Some (adminpw trusted)).

(** What [restore_vanilla_on_error] adds to the trace. *)
Definition rollback {A} (r : Res A) : list Event :=
  match r with
  | Ret _ => []
  | Raise _ => [RestoreVanilla]
  end.

(** The command of [IPATrustADTopologyController.trust_add]. *)
Definition trust_add_call (ipa trusted : Host) : Event :=
  ConnExec ipa
    ["ipa"; "trust-add"; domain trusted; "--admin"; "Administrator"; "--password"]
    (Some (adminpw trusted)).


(** What the trust topologies do for the client after the trust is created:
    nothing when "ipa" is a provisioned topology, the IPA enrolment
    otherwise. *)
Definition enrol_calls (c : Controller) (client ipa : Host) : list Event :=
  if bool_decide ("ipa" ∈ provisioned_topologies (multihost c)) then []
  else LogInfo ("Enrolling " +:+ hostname client +:+ " into " +:+ domain ipa)
         :: ipa_join_calls client ipa.

(** The snapshots with which [IPATrustIPATopologyController.topology_setup]
    ends. *)
Definition ipa_trust_snapshots (client ipa trusted : Host) : list Event :=
  [HostBackup ipa; HostBackup trusted; HostBackup client].

(** ** Statements about runs *)


(** Every entry of [backup_data] that differs between [st] and [st'] belongs
    to a host whose [backup()] was called in between. *)
Definition tracked (st st' : State) : Prop :=
  exists added,
    trace st' = trace st ++ added /\
    forall i,
      backup_data (ctrl st') !! i <> backup_data (ctrl st) !! i ->
      exists h, host_id h = i /\ HostBackup h ∈ added.

(** The computation [m] changes [backup_data] only for hosts it backs up. *)
Definition tracks {A} (m : M A) : Prop := forall st, tracked st (m st).2.

(** An environment in which no Kerberos ticket can be acquired. *)
Module Failing.

Definition env_no_ticket : Env :=
  {| exec_reply := fun _ => Ret {| rc := 0; stdout := ""; stderr := "" |};
     backup_reply := fun _ => Ret None;
     call_reply := fun tr =>
       match last tr with
       | Some (Kinit _) => Raise (ProcessError 1 "" "kinit: Password incorrect")
       | _ => Ret tt
       end |}.

End Failing.

(** ** Sample hosts, controllers and environments *)

Module Sample.

Definition client : Host :=
  {| host_id := 1; hostname := "client.test"; domain := "test"; adminpw := "" |}.

Definition ipa : Host :=
  {| host_id := 2; hostname := "master.ipa.test"; domain := "ipa.test";
     adminpw := "Secret123" |}.

Definition ad : Host :=
  {| host_id := 3; hostname := "dc.ad.test"; domain := "ad.test";
     adminpw := "vagrant" |}.

Definition ipa2 : Host :=
  {| host_id := 4; hostname := "master.ipa2.test"; domain := "ipa2.test";
     adminpw := "Secret123" |}.

Definition ok : ProcessResult := {| rc := 0; stdout := ""; stderr := "" |}.

(** Every call succeeds. *)
Definition env_ok : Env :=
  {| exec_reply := fun _ => Ret ok;
     backup_reply := fun _ => Ret (Some "/var/lib/backup");
     call_reply := fun _ => Ret tt |}.

(** Every command fails with an error that is not the transient one. *)
Definition env_denied : Env :=
  {| exec_reply := fun _ => Raise (ProcessError 1 "" "Insufficient access");
     backup_reply := fun _ => Ret None;
     call_reply := fun _ => Ret tt |}.

(** The first two commands fail with the transient CIFS error, the later
    ones succeed. *)
Definition env_flaky : Env :=
  {| exec_reply := fun tr =>
       if (count is_exec tr <=? 2)%nat
       then Raise (ProcessError 1 "" ("ipa: ERROR: " +:+ cifs_error))
       else Ret ok;
     backup_reply := fun _ => Ret (Some "/var/lib/backup");
     call_reply := fun _ => Ret tt |}.

Definition config (names : gset string) : SSSDMultihostConfig :=
  {| provisioned_topologies := names |}.

Definition controller (nm : string) (names : gset string) (hs : list Host)
  (flag : bool) : Controller :=
  {| base := {| name := nm; multihost := config names; hosts := hs;
                backup_data := ∅ |};
     provisioned := flag |}.

End Sample.

(** A Samba controller of a session whose provisioned topologies are "samba"
    and "ipa": what [super().__init__()] leaves and what [super().init()]
    sets. *)
Module Lifecycle.

Definition constructed : BackupTopologyController :=
  {| name := ""; multihost := Sample.config ∅; hosts := []; backup_data := ∅ |}.

Definition super_init (b : BackupTopologyController) : BackupTopologyController :=
  {| name := "samba";
     multihost := Sample.config {["samba"; "ipa"]};
     hosts := [Sample.client; Sample.ad];
     backup_data := backup_data b |}.

End Lifecycle.

(** * Properties *)

(** ** The monad *)

Lemma same_config_refl c : same_config c c.
Proof. by repeat split. Qed.

Lemma same_config_trans c1 c2 c3 :
  same_config c1 c2 -> same_config c2 c3 -> same_config c1 c3.
Proof.
  intros (?&?&?&?) (?&?&?&?). repeat split; congruence.
Qed.

Lemma extends_refl P st : extends P st st.
Proof.
  split; [apply same_config_refl|]. split; [done|].
  exists []. by rewrite app_nil_r.
Qed.

Lemma extends_trans P st1 st2 st3 :
  extends P st1 st2 -> extends P st2 st3 -> extends P st1 st3.
Proof.
  intros (Hc1 & Hd1 & a1 & Ht1 & Hp1) (Hc2 & Hd2 & a2 & Ht2 & Hp2).
  split; [by eapply same_config_trans|]. split; [set_solver|].
  exists (a1 ++ a2). rewrite Ht2, Ht1, <- app_assoc. split; [done|].
  rewrite forallb_app, Hp1, Hp2. done.
Qed.

Lemma extends_event P c tr ev :
  P ev = true ->
  extends P {| ctrl := c; trace := tr |} {| ctrl := c; trace := tr ++ [ev] |}.
Proof.
  intros HP. split; [apply same_config_refl|]. split; [done|].
  exists [ev]. simpl. by rewrite HP.
Qed.

Lemma extends_weaken (P Q : Event -> bool) st st' :
  (forall ev, P ev = true -> Q ev = true) -> extends P st st' -> extends Q st st'.
Proof.
  intros HPQ (Hc & Hd & a & Ht & Hp). repeat split; try apply Hc; [done|].
  exists a. split; [done|].
  apply forallb_forall. intros ev Hin.
  apply HPQ. by eapply forallb_forall in Hp.
Qed.

Section Steps.

Context (env : Env) (c0 : Controller) (P : Event -> bool).

Lemma steps_ret {A} (a : A) : steps c0 P (ret a).
Proof. intros st _. apply extends_refl. Qed.

Lemma steps_raise {A} e : steps c0 P (@raise A e).
Proof. intros st _. apply extends_refl. Qed.

Lemma steps_emit ev : P ev = true -> steps c0 P (emit ev).
Proof. intros HP [c tr] _. by apply extends_event. Qed.

Lemma steps_perform {A} (reply : list Event -> Res A) ev :
  P ev = true -> steps c0 P (perform reply ev).
Proof. intros HP [c tr] _. by apply extends_event. Qed.

Lemma steps_set_backup_data h v : steps c0 P (set_backup_data h v).
Proof.
  intros [c tr] _. split; [by repeat split|]. split.
  - simpl. rewrite dom_insert_L. set_solver.
  - exists []. by rewrite app_nil_r.
Qed.

Lemma steps_bind {A B} (m : M A) (k : A -> M B) :
  steps c0 P m -> (forall a, steps c0 P (k a)) -> steps c0 P (bind m k).
Proof.
  intros Hm Hk st Hst. unfold bind.
  specialize (Hm st Hst). destruct (m st) as [[a|e] st1]; [|done].
  eapply extends_trans; [exact Hm|]. apply Hk.
  eapply same_config_trans; [exact Hst|apply Hm].
Qed.

Lemma steps_get_self {B} (k : Controller -> M B) :
  (forall self, same_config c0 self -> steps c0 P (k self)) ->
  steps c0 P (bind get_self k).
Proof. intros Hk st Hst. unfold bind, get_self. by apply Hk. Qed.

Lemma steps_try_except {A} (m : M A) (handler : Error -> M A) :
  steps c0 P m -> (forall e, steps c0 P (handler e)) ->
  steps c0 P (try_except m handler).
Proof.
  intros Hm Hh st Hst. unfold try_except.
  specialize (Hm st Hst). destruct (m st) as [[a|e] st1]; [done|].
  eapply extends_trans; [exact Hm|]. apply Hh.
  eapply same_config_trans; [exact Hst|apply Hm].
Qed.

Lemma steps_backup_hosts hs :
  (forall h, P (HostBackup h) = true) -> steps c0 P (backup_hosts env hs).
Proof.
  intros HP. induction hs as [|h hs IH]; simpl.
  - apply steps_ret.
  - apply steps_bind; [by apply steps_perform|]. intros data.
    apply steps_bind; [apply steps_set_backup_data|]. intros _. exact IH.
Qed.

Lemma steps_retry_loop {A} remaining delay pat (func : M A) :
  P (Sleep delay) = true -> steps c0 P func ->
  steps c0 P (retry_loop remaining delay pat func).
Proof.
  intros HP Hf. induction remaining as [|n IH]; simpl.
  - apply steps_try_except; [done|]. intros e. apply steps_raise.
  - apply steps_try_except; [done|]. intros e.
    destruct (error_matches pat e); [|apply steps_raise].
    apply steps_bind; [by apply steps_emit|]. intros _. exact IH.
Qed.

End Steps.

Ltac unfold_calls :=
  unfold logger_info, fs_rm, fs_backup, conn_exec, kinit, host_backup,
    time_sleep, restore_vanilla, BackupTopologyController_teardown,
    BackupTopologyController_topology_teardown,
    BackupTopologyController_topology_setup, restore_vanilla_on_error,
    retry_command.

Ltac steps_step :=
  first
    [ apply steps_get_self; intros ? ?
    | apply steps_bind; [|intros ?]
    | apply steps_try_except; [|intros ?]
    | apply steps_ret
    | apply steps_raise
    | apply steps_emit; reflexivity
    | apply steps_perform; reflexivity
    | apply steps_set_backup_data
    | apply steps_backup_hosts; intros ?; reflexivity
    | apply steps_retry_loop; [reflexivity|]
    | match goal with
      | |- steps _ _ (if ?b then _ else _) =>
          lazymatch b with
          | true => fail
          | false => fail
          | _ => destruct b
          end
      end ].

Ltac steps_auto := unfold_calls; repeat steps_step.

Lemma count_app p l1 l2 : count p (l1 ++ l2) = count p l1 + count p l2.
Proof. unfold count. by rewrite filter_app, length_app. Qed.

Lemma count_none p l :
  forallb (fun ev => negb (p ev)) l = true -> count p l = 0.
Proof.
  unfold count. induction l as [|ev l IH]; simpl; [done|].
  intros [Hev Hl]%andb_true_iff. rewrite filter_cons.
  destruct (decide (p ev = true)) as [Hp|Hp].
  - by rewrite Hp in Hev.
  - by apply IH.
Qed.

(** ** The methods keep the configuration *)

Section Config.

Context (env : Env).

Lemma steps_trust_add c0 P ipa trusted :
  P (Sleep 5) = true ->
  (forall argv, P (ConnExec ipa ("ipa" :: "trust-add" :: argv)
                     (Some (adminpw trusted))) = true) ->
  steps c0 P (IPATrustADTopologyController_trust_add env ipa trusted).
Proof.
  intros Hs He. unfold IPATrustADTopologyController_trust_add, retry_command.
  apply steps_retry_loop; [done|]. apply steps_perform, He.
Qed.

Lemma steps_teardown c0 k : steps c0 (fun _ => true) (teardown k).
Proof.
  unfold teardown, ProvisionedBackupTopologyController_teardown. steps_auto.
Qed.

Lemma steps_topology_teardown c0 k :
  steps c0 (fun _ => true) (topology_teardown k).
Proof.
  unfold topology_teardown, ProvisionedBackupTopologyController_topology_teardown.
  steps_auto.
Qed.

Lemma steps_topology_setup_wrapped c0 k (args : SetupArgs k) :
  steps c0 (fun ev => negb (is_restore_vanilla ev))
    (topology_setup_wrapped env k args).
Proof.
  destruct k; simpl in args; try destruct args as [[client ipa] trusted];
    try destruct args as [client ipa]; simpl;
    unfold IPATopologyController_topology_setup_wrapped,
      ADTopologyController_topology_setup_wrapped,
      IPATrustADTopologyController_topology_setup_wrapped,
      IPATrustIPATopologyController_topology_setup_wrapped,
      IPATrustADTopologyController_trust_add;
    steps_auto.
Qed.

Lemma topology_setup_decorated k (args : SetupArgs k) :
  has_topology_setup k = true ->
  topology_setup env k args =
  restore_vanilla_on_error (topology_setup_wrapped env k args).
Proof.
  destruct k; try discriminate; intros _; simpl in args;
    try destruct args as [[client ipa] trusted];
    try destruct args as [client ipa]; reflexivity.
Qed.

Lemma steps_topology_setup c0 k (args : SetupArgs k) :
  steps c0 (fun _ => true) (topology_setup env k args).
Proof.
  assert (Hw : steps c0 (fun _ => true) (topology_setup_wrapped env k args)).
  { intros st Hst.
    apply (extends_weaken (fun ev => negb (is_restore_vanilla ev))); [done|].
    by apply (steps_topology_setup_wrapped c0). }
  destruct (has_topology_setup k) eqn:Hk.
  - rewrite topology_setup_decorated by done. steps_auto. exact Hw.
  - destruct k; try discriminate; exact Hw.
Qed.

End Config.

(** ** The provisioned flag *)

Section Provisioned.

Context (env : Env).

Lemma steps_setup_not_provisioned c0 k (args : SetupArgs k) :
  provisioned c0 = false ->
  steps c0 (fun ev => negb (is_provisioned_log ev)) (topology_setup env k args).
Proof.
  intros Hc0.
  destruct k; simpl in args; try destruct args as [[client ipa] trusted];
    try destruct args as [client ipa]; simpl;
    unfold IPATopologyController_topology_setup,
      ADTopologyController_topology_setup,
      IPATrustADTopologyController_topology_setup,
      IPATrustIPATopologyController_topology_setup,
      IPATopologyController_topology_setup_wrapped,
      ADTopologyController_topology_setup_wrapped,
      IPATrustADTopologyController_topology_setup_wrapped,
      IPATrustIPATopologyController_topology_setup_wrapped,
      IPATrustADTopologyController_trust_add;
    unfold_calls;
    try (apply steps_try_except; [|intros ?; repeat steps_step]);
    try (apply steps_get_self; intros self (_&_&_&Hp); rewrite Hp, Hc0);
    repeat steps_step.
Qed.

(** C1 (as amended): a controller whose [topology_setup] is defined in this
    module and whose provisioned flag is set logs that the topology is already
    provisioned and returns: the log line is the only call of the trace, no
    remote command is issued, and the controller, with its [backup_data], is
    left as it was. *)
Theorem provisioned_setup_only_logs k (args : SetupArgs k) c tr :
  has_topology_setup k = true ->
  provisioned c = true ->
  run (topology_setup env k args) c tr =
  (Ret tt,
   {| ctrl := c;
      trace := tr ++ [LogInfo ("Topology '" +:+ name c +:+ "' is already provisioned")] |}).
Proof.
  intros Hk Hp.
  destruct k; try discriminate; simpl in args;
    try destruct args as [[client ipa] trusted];
    try destruct args as [client ipa];
    unfold run; simpl;
    unfold IPATopologyController_topology_setup,
      ADTopologyController_topology_setup,
      IPATrustADTopologyController_topology_setup,
      IPATrustIPATopologyController_topology_setup,
      IPATopologyController_topology_setup_wrapped,
      ADTopologyController_topology_setup_wrapped,
      IPATrustADTopologyController_topology_setup_wrapped,
      IPATrustIPATopologyController_topology_setup_wrapped,
      restore_vanilla_on_error, try_except, bind, get_self;
    simpl; rewrite Hp; reflexivity.
Qed.

(** C6: for every class, [teardown] restores the hosts ([restore_vanilla])
    when the flag is set and calls the inherited [teardown] otherwise, and
    [topology_teardown] does nothing when the flag is set and calls the
    inherited [topology_teardown] otherwise; nothing but the flag is
    consulted, and the controller is left as it was. *)
Theorem teardown_decided_by_flag k c tr :
  run (teardown k) c tr =
    (Ret tt,
     {| ctrl := c;
        trace := tr ++ [if provisioned c then RestoreVanilla else SuperTeardown] |}) /\
  run (topology_teardown k) c tr =
    (Ret tt,
     {| ctrl := c;
        trace := if provisioned c then tr else tr ++ [SuperTopologyTeardown] |}).
Proof.
  unfold run, teardown, topology_teardown,
    ProvisionedBackupTopologyController_teardown,
    ProvisionedBackupTopologyController_topology_teardown,
    bind, get_self; simpl.
  destruct (provisioned c); split; reflexivity.
Qed.

(** C10: the flag is [False] after [__init__]; after [init] it is [True]
    exactly when the name of the controller is in the set of provisioned
    topologies; no other method of any class changes it; and a controller
    that was constructed but not initialised takes the inherited path in both
    teardown methods and never the already-provisioned exit of a setup. *)
Theorem provisioned_only_set_by_init :
  (forall b, provisioned (ProvisionedBackupTopologyController___init__ b) = false) /\
  (forall super_init self,
     provisioned (ProvisionedBackupTopologyController_init super_init self) = true <->
     name (ProvisionedBackupTopologyController_init super_init self)
       ∈ provisioned_topologies
           (multihost (ProvisionedBackupTopologyController_init super_init self))) /\
  (forall k (args : SetupArgs k) c tr,
     provisioned (ctrl (run (topology_setup env k args) c tr).2) = provisioned c /\
     provisioned (ctrl (run (teardown k) c tr).2) = provisioned c /\
     provisioned (ctrl (run (topology_teardown k) c tr).2) = provisioned c) /\
  (forall ipa trusted c tr,
     provisioned
       (ctrl (run (IPATrustADTopologyController_trust_add env ipa trusted) c tr).2)
     = provisioned c) /\
  (forall b k (args : SetupArgs k) tr,
     run (teardown k) (ProvisionedBackupTopologyController___init__ b) tr =
       run BackupTopologyController_teardown
         (ProvisionedBackupTopologyController___init__ b) tr /\
     run (topology_teardown k) (ProvisionedBackupTopologyController___init__ b) tr =
       run BackupTopologyController_topology_teardown
         (ProvisionedBackupTopologyController___init__ b) tr /\
     exists added,
       trace (run (topology_setup env k args)
                (ProvisionedBackupTopologyController___init__ b) tr).2 = tr ++ added /\
       count is_provisioned_log added = 0).
Proof.
  split; [done|]. split.
  { intros super_init self. simpl. apply bool_decide_eq_true. }
  split.
  { intros k args c tr. unfold run. repeat split.
    - by destruct (steps_topology_setup env c k args {| ctrl := c; trace := tr |}
                     (same_config_refl c)) as [(_&_&_&H) _].
    - by destruct (steps_teardown c k {| ctrl := c; trace := tr |}
                     (same_config_refl c)) as [(_&_&_&H) _].
    - by destruct (steps_topology_teardown c k {| ctrl := c; trace := tr |}
                     (same_config_refl c)) as [(_&_&_&H) _]. }
  split.
  { intros ipa trusted c tr. unfold run.
    by destruct (steps_trust_add env c (fun _ => true) ipa trusted eq_refl
                   (fun _ => eq_refl) {| ctrl := c; trace := tr |}
                   (same_config_refl c)) as [(_&_&_&H) _]. }
  intros b k args tr. split; [done|]. split; [done|].
  set (c := ProvisionedBackupTopologyController___init__ b).
  destruct (steps_setup_not_provisioned c k args eq_refl
              {| ctrl := c; trace := tr |} (same_config_refl c))
    as (_ & _ & added & Ht & Hp).
  exists added. split; [exact Ht|]. by apply count_none.
Qed.

End Provisioned.

(** ** Classes that only inherit *)

Lemma backup_topology_setup_calls env c tr :
  exists added,
    trace (run (BackupTopologyController_topology_setup env) c tr).2 = tr ++ added /\
    forallb is_host_backup added = true.
Proof.
  assert (Hs : steps c is_host_backup (BackupTopologyController_topology_setup env))
    by steps_auto.
  destruct (Hs {| ctrl := c; trace := tr |} (same_config_refl c))
    as (_ & _ & added & Ht & Hp).
  by exists added.
Qed.

Lemma base_behaviour_inherited env k :
  defines_topology_setup k = false -> parent k = None -> base_behaviour env k.
Proof.
  intros Hd Hp. destruct k; try discriminate; repeat split; try done;
    intros args c tr; simpl;
    destruct (backup_topology_setup_calls env c tr) as (added & Ht & Hb);
    exists added; (split; [exact Ht|]);
    split; apply count_none, forallb_forall; intros ev Hin;
    (eapply forallb_forall in Hb; [|exact Hin]); by destruct ev.
Qed.

(** C9: [SambaTopologyController] has the methods of [ADTopologyController]
    and [IPATrustSambaTopologyController] those of
    [IPATrustADTopologyController], so setup, teardown and retried trust
    creation coincide on every input; [LDAPTopologyController] and
    [ClientTopologyController] have exactly the inherited behaviour and issue
    no join. *)
Theorem derived_classes_share_methods env :
  (topology_setup env SambaTopologyController =
     topology_setup env ADTopologyController /\
   teardown SambaTopologyController = teardown ADTopologyController /\
   topology_teardown SambaTopologyController =
     topology_teardown ADTopologyController /\
   trust_add env SambaTopologyController = trust_add env ADTopologyController) /\
  (topology_setup env IPATrustSambaTopologyController =
     topology_setup env IPATrustADTopologyController /\
   teardown IPATrustSambaTopologyController =
     teardown IPATrustADTopologyController /\
   topology_teardown IPATrustSambaTopologyController =
     topology_teardown IPATrustADTopologyController /\
   trust_add env IPATrustSambaTopologyController =
     trust_add env IPATrustADTopologyController) /\
  base_behaviour env LDAPTopologyController /\
  base_behaviour env ClientTopologyController.
Proof.
  split; [by repeat split|]. split; [by repeat split|].
  split; by apply base_behaviour_inherited.
Qed.

Lemma provisioned_setup_only_logs_witness :
  has_topology_setup IPATrustSambaTopologyController = true /\
  provisioned
    (Sample.controller "ipa-trust-samba" {["ipa-trust-samba"]}
       [Sample.client; Sample.ipa; Sample.ad] true) = true /\
  run (topology_setup Sample.env_denied IPATrustSambaTopologyController
         (Sample.client, Sample.ipa, Sample.ad))
      (Sample.controller "ipa-trust-samba" {["ipa-trust-samba"]}
         [Sample.client; Sample.ipa; Sample.ad] true) [] =
  (Ret tt,
   {| ctrl := Sample.controller "ipa-trust-samba" {["ipa-trust-samba"]}
                [Sample.client; Sample.ipa; Sample.ad] true;
      trace := [] ++ [LogInfo ("Topology '" +:+ "ipa-trust-samba"
                               +:+ "' is already provisioned")] |}).
Proof.
  split; [reflexivity|]. split; [reflexivity|].
  apply (provisioned_setup_only_logs Sample.env_denied
           IPATrustSambaTopologyController); reflexivity.
Defined.

(** A provisioned LDAP topology: the inherited setup runs whatever the flag
    says; it logs nothing, backs up the host and stores the snapshot. *)
Example provisioned_ldap_setup_run :
  let r := run (topology_setup Sample.env_ok LDAPTopologyController [])
             (Sample.controller "ldap" {["ldap"]} [Sample.client] true) [] in
  r.1 = Ret tt /\
  trace r.2 = [HostBackup Sample.client] /\
  backup_data (ctrl r.2) !! 1 = Some (Some "/var/lib/backup").
Proof. repeat split; vm_compute; reflexivity. Qed.

(** C1 (as stated) fails: it is not the case that every controller whose flag
    is set only logs and returns with the controller unchanged; the LDAP
    controller inherits its setup, which takes a snapshot. *)
Lemma provisioned_setup_not_always_skipped :
  ~ (forall env k (args : SetupArgs k) c tr,
       provisioned c = true ->
       exists msg,
         run (topology_setup env k args) c tr =
         (Ret tt, {| ctrl := c; trace := tr ++ [LogInfo msg] |})).
Proof.
  intros H.
  destruct (H Sample.env_ok LDAPTopologyController []
              (Sample.controller "ldap" {["ldap"]} [Sample.client] true) []
              eq_refl) as [msg Hrun].
  apply (f_equal (fun r => trace r.2)) in Hrun.
  vm_compute in Hrun. discriminate Hrun.
Qed.

(** ** Rollback on error *)

Lemma restore_vanilla_on_error_raise {A} (m : M A) st e :
  (m st).1 = Raise e ->
  restore_vanilla_on_error m st =
  (Raise e, {| ctrl := ctrl (m st).2; trace := trace (m st).2 ++ [RestoreVanilla] |}).
Proof.
  unfold restore_vanilla_on_error, try_except. destruct (m st) as [[a|e'] st1].
  - discriminate.
  - simpl. intros [= ->]. reflexivity.
Qed.

Lemma restore_vanilla_on_error_ret {A} (m : M A) st a :
  (m st).1 = Ret a -> restore_vanilla_on_error m st = m st.
Proof.
  unfold restore_vanilla_on_error, try_except. destruct (m st) as [[a'|e] st1].
  - reflexivity.
  - discriminate.
Qed.

(** C3: for every class whose [topology_setup] is a method of this module,
    when the function under the decorator raises [e], the setup raises the
    same [e], and [restore_vanilla] is called exactly once, as the last call
    of the setup. *)
Theorem setup_error_restores_vanilla_once env k (args : SetupArgs k) c tr e :
  has_topology_setup k = true ->
  (run (topology_setup_wrapped env k args) c tr).1 = Raise e ->
  (run (topology_setup env k args) c tr).1 = Raise e /\
  ctrl (run (topology_setup env k args) c tr).2 =
    ctrl (run (topology_setup_wrapped env k args) c tr).2 /\
  exists added,
    trace (run (topology_setup_wrapped env k args) c tr).2 = tr ++ added /\
    trace (run (topology_setup env k args) c tr).2 =
      tr ++ added ++ [RestoreVanilla] /\
    count is_restore_vanilla added = 0 /\
    count is_restore_vanilla (added ++ [RestoreVanilla]) = 1.
Proof.
  intros Hk He. unfold run in *.
  rewrite topology_setup_decorated by done.
  rewrite (restore_vanilla_on_error_raise _ _ e) by done. simpl.
  split; [done|]. split; [done|].
  destruct (steps_topology_setup_wrapped env c k args {| ctrl := c; trace := tr |}
              (same_config_refl c)) as (_ & _ & added & Ht & Hp).
  exists added. simpl in Ht. rewrite Ht, <- app_assoc.
  apply count_none in Hp.
  repeat split; [done|]. by rewrite count_app, Hp.
Qed.

Lemma setup_error_restores_vanilla_once_witness :
  has_topology_setup IPATrustADTopologyController = true /\
  (run (topology_setup_wrapped Sample.env_denied IPATrustADTopologyController
          (Sample.client, Sample.ipa, Sample.ad))
       (Sample.controller "ipa-trust-ad" ∅
          [Sample.client; Sample.ipa; Sample.ad] false) []).1
    = Raise (ProcessError 1 "" "Insufficient access") /\
  (run (topology_setup Sample.env_denied IPATrustADTopologyController
          (Sample.client, Sample.ipa, Sample.ad))
       (Sample.controller "ipa-trust-ad" ∅
          [Sample.client; Sample.ipa; Sample.ad] false) []).1
    = Raise (ProcessError 1 "" "Insufficient access").
Proof.
  split; [reflexivity|]. split; [reflexivity|].
  apply (setup_error_restores_vanilla_once Sample.env_denied
           IPATrustADTopologyController
           (Sample.client, Sample.ipa, Sample.ad)
           (Sample.controller "ipa-trust-ad" ∅
              [Sample.client; Sample.ipa; Sample.ad] false) []);
    reflexivity.
Defined.

(** ** Retrying the trust creation *)

Lemma failed_attempts_snoc tr ev delay n (l : list Event) :
  (tr ++ [ev; Sleep delay]) ++ failed_attempts ev delay n ++ l =
  tr ++ failed_attempts ev delay (S n) ++ l.
Proof. simpl. by rewrite <- app_assoc. Qed.

Lemma count_exec_failed_attempts h argv input delay n :
  count is_exec (failed_attempts (ConnExec h argv input) delay n
                 ++ [ConnExec h argv input]) = S n.
Proof.
  induction n as [|n IH]; [reflexivity|].
  simpl. unfold count in *. rewrite filter_cons_True by done.
  rewrite filter_cons_False by done. simpl. by rewrite IH.
Qed.

Lemma count_sleep_failed_attempts h argv input delay n :
  count is_sleep (failed_attempts (ConnExec h argv input) delay n
                  ++ [ConnExec h argv input]) = n.
Proof.
  induction n as [|n IH]; [reflexivity|].
  simpl. unfold count in *. rewrite filter_cons_False by done.
  rewrite filter_cons_True by done. simpl. by rewrite IH.
Qed.

(** The loop issues the call, and issues it again after the delay as long as
    the answer is a matching error and retries remain. *)
Lemma retry_loop_perform {A} (reply : list Event -> Res A) ev delay pat remaining :
  forall c tr,
    exists n,
      n <= remaining /\
      run (retry_loop remaining delay pat (perform reply ev)) c tr =
        (reply (tr ++ failed_attempts ev delay n ++ [ev]),
         {| ctrl := c; trace := tr ++ failed_attempts ev delay n ++ [ev] |}) /\
      (forall i, i < n ->
         exists e, reply (tr ++ failed_attempts ev delay i ++ [ev]) = Raise e /\
                   error_matches pat e = true) /\
      (n < remaining ->
         forall e, reply (tr ++ failed_attempts ev delay n ++ [ev]) = Raise e ->
                   error_matches pat e = false).
Proof.
  induction remaining as [|m IH]; intros c tr.
  - exists 0. split; [lia|]. split.
    + unfold run, retry_loop, try_except, perform, raise. simpl.
      by destruct (reply (tr ++ [ev])).
    + split; intros; lia.
  - unfold run. simpl. unfold try_except at 1. unfold perform at 1. simpl.
    destruct (reply (tr ++ [ev])) as [a|e] eqn:Hr.
    { exists 0. split; [lia|]. simpl. rewrite Hr. split; [done|].
      split; [intros; lia|]. intros _ e He. congruence. }
    destruct (error_matches pat e) eqn:Hm.
    + destruct (IH c (tr ++ [ev; Sleep delay])) as (n & Hn & Hrun & Hbefore & Hlast).
      exists (S n). split; [lia|]. split.
      { unfold bind, time_sleep, emit. simpl. rewrite <- app_assoc. simpl.
        unfold run in Hrun. rewrite Hrun.
        by rewrite !failed_attempts_snoc. }
      split.
      * intros [|i] Hi.
        -- exists e. by split.
        -- destruct (Hbefore i ltac:(lia)) as (e' & He' & Hm').
           exists e'. by rewrite <- failed_attempts_snoc.
      * intros Hlt e' He'. apply Hlast; [lia|].
        by rewrite failed_attempts_snoc.
    + exists 0. split; [lia|]. simpl. rewrite Hr. split; [done|].
      split; [intros; lia|]. intros _ e' [= <-]. exact Hm.
Qed.

Lemma append_cons b s t : String b s +:+ t = String b (s +:+ t).
Proof. reflexivity. Qed.

Lemma prefix_spec pat s :
  String.prefix pat s = true <-> exists post, s = pat +:+ post.
Proof.
  revert s. induction pat as [|a pat IH]; intros s.
  - split; [intros _; by exists s|by destruct s].
  - destruct s as [|b s]; simpl.
    + split; [done|]. intros [post Hpost]. discriminate.
    + destruct (Ascii.ascii_dec a b) as [->|Hne].
      * rewrite IH. split; intros [post Hpost]; exists post;
          rewrite append_cons in *; congruence.
      * split; [done|]. intros [post Hpost].
        rewrite append_cons in Hpost. congruence.
Qed.

(** [contains] is the substring test. *)
Lemma contains_spec pat s :
  contains pat s = true <-> exists pre post, s = pre +:+ pat +:+ post.
Proof.
  induction s as [|b s IH].
  - cbn [contains]. rewrite orb_false_r, prefix_spec. split.
    + intros [post Hpost]. by exists "", post.
    + intros (pre & post & H). destruct pre; [by exists post|discriminate].
  - cbn [contains]. rewrite orb_true_iff, prefix_spec, IH. split.
    + intros [[post Hpost]|(pre & post & Hs)].
      * by exists "", post.
      * exists (String b pre), post. by rewrite append_cons, Hs.
    + intros (pre & post & Hs). destruct pre as [|b' pre].
      * left. by exists post.
      * right. exists pre, post. rewrite append_cons in Hs. congruence.
Qed.

Lemma error_matches_spec pat e :
  error_matches pat e = true <->
  exists code out pre post, e = ProcessError code out (pre +:+ pat +:+ post).
Proof.
  destruct e as [code out err|msg]; simpl.
  - rewrite contains_spec. split.
    + intros (pre & post & ->). by exists code, out, pre, post.
    + intros (code' & out' & pre & post & [= _ _ ->]). by exists pre, post.
  - split; [done|]. by intros (?&?&?&?&?).
Qed.

(** C2: [trust_add] is retried at most 20 times, 5 seconds after each failed
    attempt, after an error whose output contains the CIFS error and after no
    other (with retries left, the last answer is not a matching error); an
    error that does not match is raised after the first attempt; and when the
    first [N - 1] attempts ([N <= 20]) fail with the matching error and
    attempt [N] succeeds, [trust_add] returns its result after exactly [N]
    attempts. *)
Theorem trust_add_retried_on_cifs_error env ipa trusted c tr :
  (exists n,
     n <= 20 /\
     run (IPATrustADTopologyController_trust_add env ipa trusted) c tr =
       (exec_reply env
          (tr ++ failed_attempts (trust_add_call ipa trusted) 5 n
              ++ [trust_add_call ipa trusted]),
        {| ctrl := c;
           trace := tr ++ failed_attempts (trust_add_call ipa trusted) 5 n
                       ++ [trust_add_call ipa trusted] |}) /\
     (forall i, i < n ->
        exists e,
          exec_reply env
            (tr ++ failed_attempts (trust_add_call ipa trusted) 5 i
                ++ [trust_add_call ipa trusted]) = Raise e /\
          error_matches cifs_error e = true) /\
     (n < 20 ->
      forall e,
        exec_reply env
          (tr ++ failed_attempts (trust_add_call ipa trusted) 5 n
              ++ [trust_add_call ipa trusted]) = Raise e ->
        error_matches cifs_error e = false)) /\
  (forall e,
     exec_reply env (tr ++ [trust_add_call ipa trusted]) = Raise e ->
     error_matches cifs_error e = false ->
     run (IPATrustADTopologyController_trust_add env ipa trusted) c tr =
       (Raise e, {| ctrl := c; trace := tr ++ [trust_add_call ipa trusted] |})) /\
  (forall N r,
     1 <= N <= 20 ->
     (forall i, i < N - 1 ->
        exists e,
          exec_reply env
            (tr ++ failed_attempts (trust_add_call ipa trusted) 5 i
                ++ [trust_add_call ipa trusted]) = Raise e /\
          error_matches cifs_error e = true) ->
     exec_reply env
       (tr ++ failed_attempts (trust_add_call ipa trusted) 5 (N - 1)
           ++ [trust_add_call ipa trusted]) = Ret r ->
     run (IPATrustADTopologyController_trust_add env ipa trusted) c tr =
       (Ret r,
        {| ctrl := c;
           trace := tr ++ failed_attempts (trust_add_call ipa trusted) 5 (N - 1)
                       ++ [trust_add_call ipa trusted] |}) /\
     count is_exec (failed_attempts (trust_add_call ipa trusted) 5 (N - 1)
                    ++ [trust_add_call ipa trusted]) = N /\
     count is_sleep (failed_attempts (trust_add_call ipa trusted) 5 (N - 1)
                     ++ [trust_add_call ipa trusted]) = N - 1).
Proof.
  unfold IPATrustADTopologyController_trust_add, retry_command, conn_exec.
  fold (trust_add_call ipa trusted).
  destruct (retry_loop_perform (exec_reply env) (trust_add_call ipa trusted)
              5 cifs_error 20 c tr) as (n & Hn & Hrun & Hbefore & Hlast).
  split; [by exists n|]. split.
  - intros e He Hm. rewrite Hrun.
    destruct n as [|n]; [simpl; by rewrite He|].
    destruct (Hbefore 0 ltac:(lia)) as (e' & He' & Hm'). simpl in He'.
    congruence.
  - intros N r HN Hfail Hok.
    assert (n = N - 1) as ->.
    { destruct (Nat.lt_trichotomy n (N - 1)) as [Hlt|[Heq|Hgt]]; [|done|].
      - destruct (Hfail n Hlt) as (e & He & Hm).
        rewrite (Hlast ltac:(lia) e He) in Hm. discriminate.
      - destruct (Hbefore (N - 1) Hgt) as (e & He & _). congruence. }
    rewrite Hrun, Hok. split; [done|]. unfold trust_add_call.
    rewrite count_exec_failed_attempts, count_sleep_failed_attempts.
    split; lia.
Qed.

Lemma trust_add_retried_on_cifs_error_witness :
  run (IPATrustADTopologyController_trust_add Sample.env_flaky
         Sample.ipa Sample.ad)
      (Sample.controller "ipa-trust-ad" ∅ [] false) [] =
    (Ret Sample.ok,
     {| ctrl := Sample.controller "ipa-trust-ad" ∅ [] false;
        trace := [] ++ failed_attempts (trust_add_call Sample.ipa Sample.ad) 5 (3 - 1)
                    ++ [trust_add_call Sample.ipa Sample.ad] |}) /\
  count is_exec (failed_attempts (trust_add_call Sample.ipa Sample.ad) 5 (3 - 1)
                 ++ [trust_add_call Sample.ipa Sample.ad]) = 3 /\
  count is_sleep (failed_attempts (trust_add_call Sample.ipa Sample.ad) 5 (3 - 1)
                  ++ [trust_add_call Sample.ipa Sample.ad]) = 3 - 1.
Proof.
  apply (trust_add_retried_on_cifs_error Sample.env_flaky Sample.ipa Sample.ad
           (Sample.controller "ipa-trust-ad" ∅ [] false) []).
  - lia.
  - intros i Hi. destruct i as [|[|i]]; [eexists; split; reflexivity..|lia].
  - reflexivity.
Defined.

(** ** Calls in order *)

Section Issues.

Context (env : Env) (c0 : Controller) (P : Event -> bool).

Lemma issues_steps {A} (m : M A) : steps c0 P m -> issues c0 [] P m.
Proof.
  intros Hm st Hst. right. destruct (Hm st Hst) as (_ & _ & rest & Ht & Hp).
  by exists rest.
Qed.

Lemma issues_cons {A} ev L (m : M A) (st st1 : State) :
  trace st1 = trace st ++ [ev] ->
  ((exists n e, 1 <= n <= length L /\ (m st1).1 = Raise e /\
                trace (m st1).2 = trace st1 ++ take n L) \/
   (exists rest, trace (m st1).2 = trace st1 ++ L ++ rest /\
                 forallb P rest = true)) ->
  (exists n e, 1 <= n <= length (ev :: L) /\ (m st1).1 = Raise e /\
               trace (m st1).2 = trace st ++ take n (ev :: L)) \/
  (exists rest, trace (m st1).2 = trace st ++ (ev :: L) ++ rest /\
                forallb P rest = true).
Proof.
  intros Ht [(n & e & Hn & He & Htr)|(rest & Htr & Hp)].
  - left. exists (S n), e. split; [simpl; lia|]. split; [done|].
    rewrite Htr, Ht, <- app_assoc. done.
  - right. exists rest. split; [|done]. rewrite Htr, Ht, <- app_assoc. done.
Qed.

Lemma issues_perform {A B} (reply : list Event -> Res A) ev L (k : A -> M B) :
  (forall a, issues c0 L P (k a)) ->
  issues c0 (ev :: L) P (bind (perform reply ev) k).
Proof.
  intros Hk [c tr] Hst. unfold bind, perform. simpl.
  destruct (reply (tr ++ [ev])) as [a|e].
  - apply (issues_cons ev L (k a) {| ctrl := c; trace := tr |}); [done|].
    by apply Hk.
  - left. exists 1, e. simpl. split; [lia|]. by rewrite take_0.
Qed.

Lemma issues_emit {B} ev L (k : unit -> M B) :
  issues c0 L P (k tt) -> issues c0 (ev :: L) P (bind (emit ev) k).
Proof.
  intros Hk [c tr] Hst. unfold bind, emit. simpl.
  apply (issues_cons ev L (k tt) {| ctrl := c; trace := tr |}); [done|].
  by apply Hk.
Qed.

Lemma issues_set_backup_data {B} h v L (k : unit -> M B) :
  issues c0 L P (k tt) -> issues c0 L P (bind (set_backup_data h v) k).
Proof.
  intros Hk [c tr] Hst. unfold bind, set_backup_data. simpl.
  specialize (Hk {| ctrl := {| base := {| name := name c;
                                          multihost := multihost c;
                                          hosts := hosts c;
                                          backup_data := <[host_id h:=v]> (backup_data c) |};
                               provisioned := provisioned c |};
                    trace := tr |}).
  apply Hk. exact Hst.
Qed.

Lemma issues_get_self {B} L (k : Controller -> M B) :
  (forall self, same_config c0 self -> issues c0 L P (k self)) ->
  issues c0 L P (bind get_self k).
Proof. intros Hk st Hst. unfold bind, get_self. by apply Hk. Qed.


End Issues.

Lemma restore_vanilla_on_error_run {A} (m : M A) st :
  (restore_vanilla_on_error m st).1 = (m st).1 /\
  ctrl (restore_vanilla_on_error m st).2 = ctrl (m st).2 /\
  trace (restore_vanilla_on_error m st).2 = trace (m st).2 ++ rollback (m st).1.
Proof.
  unfold restore_vanilla_on_error, try_except.
  destruct (m st) as [[a|e] st1]; simpl; [|done].
  by rewrite app_nil_r.
Qed.

Lemma forallb_false_nil {A} (l : list A) :
  forallb (fun _ => false) l = true -> l = [].
Proof. by destruct l. Qed.

(** ** IPATopologyController *)




(** ** The trust topologies *)

Section Trust.

Context (env : Env) (c0 : Controller) (P : Event -> bool).


End Trust.




Section Skip.

Context (env : Env) (c : Controller).
Hypothesis Hp : provisioned c = false.
Hypothesis Hipa : "ipa" ∈ provisioned_topologies (multihost c).



End Skip.



(** ** IPATrustIPATopologyController *)






(** ** Snapshots after a setup that returns *)

Section Ensures.

Context (env : Env) (c0 : Controller).

Lemma ensures_bind {A B} Q (m : M A) (k : A -> M B) :
  steps c0 (fun _ => true) m -> (forall a, ensures c0 Q (k a)) ->
  ensures c0 Q (bind m k).
Proof.
  intros Hm Hk st Hst b. unfold bind.
  specialize (Hm st Hst). destruct (m st) as [[a|e] st1]; [|done].
  apply Hk. eapply same_config_trans; [exact Hst|apply Hm].
Qed.

Lemma ensures_get_self {B} Q (k : Controller -> M B) :
  (forall self, same_config c0 self -> ensures c0 Q (k self)) ->
  ensures c0 Q (bind get_self k).
Proof. intros Hk st Hst. unfold bind, get_self. by apply Hk. Qed.

Lemma ensures_decorated {A} Q (m : M A) :
  ensures c0 Q m -> ensures c0 Q (restore_vanilla_on_error m).
Proof.
  intros Hm st Hst a Ha.
  destruct (restore_vanilla_on_error_run m st) as (Hr & _ & _).
  rewrite Hr in Ha. rewrite (restore_vanilla_on_error_ret m st a Ha).
  by eapply Hm.
Qed.

Lemma has_snapshot_extends P h st st' :
  has_snapshot h st -> extends P st st' -> has_snapshot h st'.
Proof.
  unfold has_snapshot. intros Hh (_ & Hdom & _).
  apply elem_of_dom. apply Hdom. by apply elem_of_dom.
Qed.

Lemma ensures_set_last h v : ensures c0 (has_snapshot h) (set_backup_data h v).
Proof.
  intros [c tr] _ a _. unfold has_snapshot. simpl.
  rewrite lookup_insert_eq. by eexists.
Qed.

Lemma ensures_set_then {B} h v (k : unit -> M B) :
  steps c0 (fun _ => true) (k tt) ->
  ensures c0 (has_snapshot h) (bind (set_backup_data h v) k).
Proof.
  intros Hk [c tr] Hst b _. unfold bind. simpl.
  eapply has_snapshot_extends; [|apply Hk; exact Hst].
  unfold has_snapshot. simpl. rewrite lookup_insert_eq. by eexists.
Qed.

Lemma ensures_backup_hosts hs h :
  h ∈ hs -> ensures c0 (has_snapshot h) (backup_hosts env hs).
Proof.
  induction hs as [|h0 hs IH]; [by intros ?%elem_of_nil|].
  intros [->|Hin]%elem_of_cons; simpl.
  - apply ensures_bind; [by apply steps_perform|]. intros data.
    apply ensures_set_then. by apply steps_backup_hosts.
  - apply ensures_bind; [by apply steps_perform|]. intros data.
    apply ensures_bind; [apply steps_set_backup_data|]. intros _. by apply IH.
Qed.

Lemma ensures_backup_topology_setup h :
  h ∈ hosts c0 -> ensures c0 (has_snapshot h) (BackupTopologyController_topology_setup env).
Proof.
  intros Hin. apply ensures_get_self. intros self (_ & _ & Hh & _).
  apply ensures_backup_hosts. by rewrite Hh.
Qed.

End Ensures.

Ltac ensures_step :=
  first
    [ apply ensures_set_then; steps_auto
    | apply ensures_set_last
    | apply ensures_backup_topology_setup; assumption
    | apply ensures_get_self; intros ? ?
    | apply ensures_bind; [steps_auto|intros ?] ].

Lemma ensures_setup_wrapped env c k (args : SetupArgs k) h :
  provisioned c = false ->
  (k <> IPATrustIPATopologyController -> h ∈ hosts c) ->
  h ∈ passed_hosts k args ->
  ensures c (has_snapshot h) (topology_setup_wrapped env k args).
Proof.
  intros Hp Hin Hpassed.
  destruct k; simpl in args; try destruct args as [[client ipa] trusted];
    try destruct args as [client ipa]; simpl in *;
    try (apply ensures_backup_topology_setup; by apply Hin);
    unfold IPATopologyController_topology_setup_wrapped,
      ADTopologyController_topology_setup_wrapped,
      IPATrustADTopologyController_topology_setup_wrapped,
      IPATrustIPATopologyController_topology_setup_wrapped,
      IPATrustADTopologyController_trust_add;
    (apply ensures_get_self; intros self (_ & _ & _ & Hq); rewrite Hq, Hp);
    try (assert (Hh : h ∈ hosts c) by (by apply Hin); clear Hin);
    try (repeat ensures_step; fail).
  apply elem_of_cons in Hpassed as [->|Hpassed];
    [|apply elem_of_cons in Hpassed as [->|Hpassed];
      [|apply list_elem_of_singleton in Hpassed as ->]];
    repeat ensures_step.
Qed.

Lemma ensures_setup env c k (args : SetupArgs k) h :
  provisioned c = false ->
  (k <> IPATrustIPATopologyController -> h ∈ hosts c) ->
  h ∈ passed_hosts k args ->
  ensures c (has_snapshot h) (topology_setup env k args).
Proof.
  intros Hp Hin Hpassed.
  pose proof (ensures_setup_wrapped env c k args h Hp Hin Hpassed) as Hw.
  destruct (has_topology_setup k) eqn:Hk.
  - rewrite topology_setup_decorated by done. by apply ensures_decorated.
  - destruct k; try discriminate; exact Hw.
Qed.

Lemma ensures_trust_ipa_tail env c client ipa trusted :
  provisioned c = false ->
  ensures c
    (fun st => exists pre,
       trace st = pre ++ [HostBackup ipa; HostBackup trusted; HostBackup client])
    (IPATrustIPATopologyController_topology_setup env client ipa trusted).
Proof.
  intros Hp. apply ensures_decorated.
  unfold IPATrustIPATopologyController_topology_setup_wrapped.
  apply ensures_get_self. intros self (_ & _ & _ & Hq). rewrite Hq, Hp.
  do 12 (apply ensures_bind; [steps_auto|intros ?]).
  apply ensures_get_self. intros self' _.
  apply ensures_bind; [steps_auto|intros ?].
  intros [c' tr'] _ r. unfold bind, host_backup, perform, set_backup_data. simpl.
  destruct (backup_reply env (tr' ++ [HostBackup ipa])); [|done].
  destruct (backup_reply env ((tr' ++ [HostBackup ipa]) ++ [HostBackup trusted]));
    [|done].
  destruct (backup_reply env _); [|done].
  intros _. exists tr'. simpl. by rewrite <- !app_assoc.
Qed.

(** C8: after a non-provisioned setup that returns, [backup_data] has an
    entry for every host that was passed to the setup, the passed hosts being
    hosts of the topology; and the IPA-IPA setup, which takes the snapshots
    itself, ends with the backup of the primary IPA host, the trusted host and
    the client, and has an entry for each of the three. *)
Theorem setup_snapshots_passed_hosts env c tr :
  provisioned c = false ->
  (forall k (args : SetupArgs k) a,
     (forall h, h ∈ passed_hosts k args -> h ∈ hosts c) ->
     (run (topology_setup env k args) c tr).1 = Ret a ->
     forall h, h ∈ passed_hosts k args ->
               has_snapshot h (run (topology_setup env k args) c tr).2) /\
  (forall client ipa trusted a,
     (run (IPATrustIPATopologyController_topology_setup env client ipa trusted)
        c tr).1 = Ret a ->
     has_snapshot client
       (run (IPATrustIPATopologyController_topology_setup env client ipa trusted)
          c tr).2 /\
     has_snapshot ipa
       (run (IPATrustIPATopologyController_topology_setup env client ipa trusted)
          c tr).2 /\
     has_snapshot trusted
       (run (IPATrustIPATopologyController_topology_setup env client ipa trusted)
          c tr).2 /\
     exists pre,
       trace (run (IPATrustIPATopologyController_topology_setup env client ipa
                     trusted) c tr).2 =
       pre ++ [HostBackup ipa; HostBackup trusted; HostBackup client]).
Proof.
  intros Hp. split.
  - intros k args a Hsub Ha h Hh.
    eapply (ensures_setup env c k args h Hp); [by auto|done| |exact Ha].
    apply same_config_refl.
  - intros client ipa trusted a Ha.
    assert (Hall : forall h, h ∈ [client; ipa; trusted] ->
              has_snapshot h
                (run (IPATrustIPATopologyController_topology_setup env client ipa
                        trusted) c tr).2).
    { intros h Hh.
      eapply (ensures_setup env c IPATrustIPATopologyController
                (client, ipa, trusted) h Hp); [done|done| |exact Ha].
      apply same_config_refl. }
    split; [apply Hall; set_solver|].
    split; [apply Hall; set_solver|].
    split; [apply Hall; set_solver|].
    eapply (ensures_trust_ipa_tail env c client ipa trusted Hp); [|exact Ha].
    apply same_config_refl.
Qed.

Lemma setup_snapshots_passed_hosts_witness :
  provisioned (Sample.controller "ad" ∅ [Sample.client; Sample.ad] false) = false /\
  (forall h,
     h ∈ passed_hosts ADTopologyController (Sample.client, Sample.ad) ->
     h ∈ hosts (Sample.controller "ad" ∅ [Sample.client; Sample.ad] false)) /\
  (run (topology_setup Sample.env_ok ADTopologyController (Sample.client, Sample.ad))
     (Sample.controller "ad" ∅ [Sample.client; Sample.ad] false) []).1 = Ret tt /\
  forall h,
    h ∈ passed_hosts ADTopologyController (Sample.client, Sample.ad) ->
    has_snapshot h
      (run (topology_setup Sample.env_ok ADTopologyController
              (Sample.client, Sample.ad))
         (Sample.controller "ad" ∅ [Sample.client; Sample.ad] false) []).2.
Proof.
  split; [reflexivity|]. split; [intros h Hh; exact Hh|]. split; [reflexivity|].
  apply (proj1 (setup_snapshots_passed_hosts Sample.env_ok
                  (Sample.controller "ad" ∅ [Sample.client; Sample.ad] false) []
                  eq_refl)
           ADTopologyController (Sample.client, Sample.ad) tt).
  - intros h Hh. exact Hh.
  - reflexivity.
Defined.

(** * Further properties of the setup methods *)

(** ** Exact call sequences *)

Lemma bind_assoc_run {A B C} (m : M A) (f : A -> M B) (k : B -> M C) st :
  bind (bind m f) k st = bind m (fun a => bind (f a) k) st.
Proof. unfold bind. by destruct (m st) as [[a|e] st1]. Qed.

Lemma issues_bind_assoc {A B C} c0 L P (m : M A) (f : A -> M B) (k : B -> M C) :
  issues c0 L P (bind m (fun a => bind (f a) k)) ->
  issues c0 L P (bind (bind m f) k).
Proof. intros H st Hst. rewrite bind_assoc_run. by apply H. Qed.

Lemma issues_ret_bind {A B} c0 L P (a : A) (k : A -> M B) :
  issues c0 L P (k a) -> issues c0 L P (bind (ret a) k).
Proof. intros H st Hst. by apply H. Qed.

(** A computation that issues [L] and nothing after it, once decorated, runs
    an initial segment of [L] followed by the rollback if it raised. *)
Lemma issues_exact_decorated {A} c L (m : M A) st :
  issues c L (fun _ => false) m -> same_config c (ctrl st) ->
  exists n,
    n <= length L /\
    trace (restore_vanilla_on_error m st).2 =
      trace st ++ take n L ++ rollback (restore_vanilla_on_error m st).1 /\
    (forall a, (restore_vanilla_on_error m st).1 = Ret a -> n = length L).
Proof.
  intros Hm Hst.
  destruct (restore_vanilla_on_error_run m st) as (Hr & _ & Ht).
  rewrite Hr, Ht.
  destruct (Hm st Hst) as [(n & e & Hn & He & Htr)|(rest & Htr & Hrest)].
  - exists n. split; [lia|]. rewrite Htr, He, <- app_assoc.
    split; [done|discriminate].
  - apply forallb_false_nil in Hrest as ->. exists (length L).
    split; [done|]. rewrite Htr, firstn_all, app_nil_r, <- app_assoc. done.
Qed.




Lemma issues_trust_ipa_full env c client ipa trusted :
  provisioned c = false ->
  issues c
    (ipa_trust_preparation client ipa trusted
       ++ [ipa_trust_add_call ipa trusted]
       ++ enrol_calls c client ipa
       ++ ipa_trust_snapshots client ipa trusted)
    (fun _ => false)
    (IPATrustIPATopologyController_topology_setup_wrapped env client ipa trusted).
Proof.
  intros Hp.
  unfold IPATrustIPATopologyController_topology_setup_wrapped, ipa_trust_add_call.
  cbn [ipa_trust_preparation app].
  apply issues_get_self. intros self (_ & _ & _ & Hq). rewrite Hq, Hp.
  unfold_calls.
  apply issues_emit. do 8 (apply issues_perform; intros ?).
  apply issues_emit. do 2 (apply issues_perform; intros ?).
  apply issues_get_self. intros self' (_ & Hm & _ & _). rewrite Hm.
  unfold enrol_calls, ipa_trust_snapshots.
  destruct (bool_decide ("ipa" ∈ provisioned_topologies (multihost c))).
  - apply issues_ret_bind. cbn [app].
    do 2 (apply issues_perform; intros ?; apply issues_set_backup_data).
    apply issues_perform. intros ?.
    apply issues_steps, steps_set_backup_data.
  - cbn [ipa_join_calls app].
    apply issues_bind_assoc, issues_emit.
    do 5 (apply issues_bind_assoc, issues_perform; intros ?).
    apply issues_ret_bind.
    do 2 (apply issues_perform; intros ?; apply issues_set_backup_data).
    apply issues_perform. intros ?.
    apply issues_steps, steps_set_backup_data.
Qed.



Lemma count_take_le p n (l : list Event) : count p (take n l) <= count p l.
Proof.
  rewrite <- (take_drop n l) at 2. rewrite count_app. lia.
Qed.

(** X3: the IPA-IPA setup does not retry: whatever the remote side answers,
    a non-provisioned setup never sleeps and issues [ipa trust-add] at most
    once. *)
Theorem ipa_trust_ipa_never_retries env client ipa trusted c tr :
  provisioned c = false ->
  exists added,
    trace (run (IPATrustIPATopologyController_topology_setup env client ipa trusted)
             c tr).2 = tr ++ added /\
    count is_sleep added = 0 /\
    count is_trust_add added <= 1.
Proof.
  intros Hp. unfold run, IPATrustIPATopologyController_topology_setup.
  destruct (issues_exact_decorated c _ _ {| ctrl := c; trace := tr |}
              (issues_trust_ipa_full env c client ipa trusted Hp)
              (same_config_refl c)) as (n & _ & Ht & _).
  eexists. split; [exact Ht|]. rewrite !count_app.
  set (L := ipa_trust_preparation client ipa trusted ++ _).
  assert (Hs : count is_sleep L = 0).
  { unfold L, enrol_calls. by destruct (bool_decide _). }
  assert (Ha : count is_trust_add L = 1).
  { unfold L, enrol_calls. by destruct (bool_decide _). }
  pose proof (count_take_le is_sleep n L).
  pose proof (count_take_le is_trust_add n L).
  assert (count is_sleep (rollback (restore_vanilla_on_error
            (IPATrustIPATopologyController_topology_setup_wrapped env client ipa
               trusted) {| ctrl := c; trace := tr |}).1) = 0) by (by destruct _.1).
  assert (count is_trust_add (rollback (restore_vanilla_on_error
            (IPATrustIPATopologyController_topology_setup_wrapped env client ipa
               trusted) {| ctrl := c; trace := tr |}).1) = 0) by (by destruct _.1).
  lia.
Qed.

Lemma ipa_trust_ipa_never_retries_witness :
  provisioned (Sample.controller "ipa-trust-ipa" ∅
                 [Sample.client; Sample.ipa; Sample.ipa2] false) = false /\
  exists added,
    trace (run (IPATrustIPATopologyController_topology_setup Sample.env_flaky
                  Sample.client Sample.ipa Sample.ipa2)
             (Sample.controller "ipa-trust-ipa" ∅
                [Sample.client; Sample.ipa; Sample.ipa2] false) []).2 = [] ++ added /\
    count is_sleep added = 0 /\
    count is_trust_add added <= 1.
Proof.
  split; [reflexivity|].
  apply (ipa_trust_ipa_never_retries Sample.env_flaky
           Sample.client Sample.ipa Sample.ipa2
           (Sample.controller "ipa-trust-ipa" ∅
              [Sample.client; Sample.ipa; Sample.ipa2] false) []).
  reflexivity.
Defined.

(** ** What a setup writes to [backup_data] *)

Lemma tracked_refl st : tracked st st.
Proof. exists []. rewrite app_nil_r. split; [done|]. by intros i []. Qed.

Lemma tracked_trans st1 st2 st3 :
  tracked st1 st2 -> tracked st2 st3 -> tracked st1 st3.
Proof.
  intros (a1 & Ht1 & H1) (a2 & Ht2 & H2). exists (a1 ++ a2).
  split; [by rewrite Ht2, Ht1, <- app_assoc|].
  intros i Hi.
  destruct (decide (backup_data (ctrl st2) !! i = backup_data (ctrl st1) !! i))
    as [Heq|Hne].
  - destruct (H2 i) as (h & Hh & Hin); [congruence|].
    exists h. split; [done|]. apply elem_of_app. by right.
  - destruct (H1 i Hne) as (h & Hh & Hin).
    exists h. split; [done|]. apply elem_of_app. by left.
Qed.

Lemma tracked_event c tr ev :
  tracked {| ctrl := c; trace := tr |} {| ctrl := c; trace := tr ++ [ev] |}.
Proof. exists [ev]. split; [done|]. by intros i []. Qed.

Section Tracks.

Context (env : Env).

Lemma tracks_ret {A} (a : A) : tracks (ret a).
Proof. intros st. apply tracked_refl. Qed.

Lemma tracks_raise {A} e : tracks (@raise A e).
Proof. intros st. apply tracked_refl. Qed.

Lemma tracks_emit ev : tracks (emit ev).
Proof. intros [c tr]. apply tracked_event. Qed.

Lemma tracks_perform {A} (reply : list Event -> Res A) ev :
  tracks (perform reply ev).
Proof. intros [c tr]. apply tracked_event. Qed.

Lemma tracks_bind {A B} (m : M A) (k : A -> M B) :
  tracks m -> (forall a, tracks (k a)) -> tracks (bind m k).
Proof.
  intros Hm Hk st. unfold bind. specialize (Hm st).
  destruct (m st) as [[a|e] st1]; [|done].
  eapply tracked_trans; [exact Hm|apply Hk].
Qed.

Lemma tracks_get_self {B} (k : Controller -> M B) :
  (forall self, tracks (k self)) -> tracks (bind get_self k).
Proof. intros Hk st. unfold bind, get_self. apply Hk. Qed.

Lemma tracks_try_except {A} (m : M A) (handler : Error -> M A) :
  tracks m -> (forall e, tracks (handler e)) -> tracks (try_except m handler).
Proof.
  intros Hm Hh st. unfold try_except. specialize (Hm st).
  destruct (m st) as [[a|e] st1]; [done|].
  eapply tracked_trans; [exact Hm|apply Hh].
Qed.

Lemma tracked_backup h v (c : Controller) tr st' :
  tracked {| ctrl := {| base := {| name := name c;
                                   multihost := multihost c;
                                   hosts := hosts c;
                                   backup_data := <[host_id h:=v]> (backup_data c) |};
                        provisioned := provisioned c |};
             trace := tr ++ [HostBackup h] |} st' ->
  tracked {| ctrl := c; trace := tr |} st'.
Proof.
  intros (added & Ht & Hch). exists (HostBackup h :: added).
  split; [simpl in *; by rewrite Ht, <- app_assoc|].
  intros i Hi. destruct (decide (i = host_id h)) as [->|Hne].
  - exists h. split; [done|]. apply elem_of_cons. by left.
  - destruct (Hch i) as (h' & Hh' & Hin).
    + simpl in *. by rewrite lookup_insert_ne.
    + exists h'. split; [done|]. apply elem_of_cons. by right.
Qed.

Lemma tracks_backup_step {B} (reply : list Event -> Res Snapshot) h
  (k : unit -> M B) :
  (forall u, tracks (k u)) ->
  tracks (bind (perform reply (HostBackup h))
            (fun data => bind (set_backup_data h data) k)).
Proof.
  intros Hk [c tr]. unfold bind, perform, set_backup_data. simpl.
  destruct (reply (tr ++ [HostBackup h])) as [data|e].
  - eapply tracked_backup. apply Hk.
  - apply tracked_event.
Qed.

Lemma tracks_backup_last (reply : list Event -> Res Snapshot) h :
  tracks (bind (perform reply (HostBackup h))
            (fun data => set_backup_data h data)).
Proof.
  intros [c tr]. unfold bind, perform, set_backup_data. simpl.
  destruct (reply (tr ++ [HostBackup h])) as [data|e].
  - eapply tracked_backup. apply tracked_refl.
  - apply tracked_event.
Qed.

Lemma tracks_backup_hosts hs : tracks (backup_hosts env hs).
Proof.
  induction hs as [|h hs IH]; simpl.
  - apply tracks_ret.
  - unfold host_backup. apply tracks_backup_step. intros _. exact IH.
Qed.

Lemma tracks_retry_loop {A} remaining delay pat (func : M A) :
  tracks func -> tracks (retry_loop remaining delay pat func).
Proof.
  intros Hf. induction remaining as [|n IH]; simpl.
  - apply tracks_try_except; [done|]. intros e. apply tracks_raise.
  - apply tracks_try_except; [done|]. intros e.
    destruct (error_matches pat e); [|apply tracks_raise].
    apply tracks_bind; [apply tracks_emit|]. intros _. exact IH.
Qed.

End Tracks.

Ltac tracks_step :=
  first
    [ apply tracks_backup_step; intros ?
    | apply tracks_backup_last
    | apply tracks_get_self; intros ?
    | apply tracks_bind; [|intros ?]
    | apply tracks_try_except; [|intros ?]
    | apply tracks_ret
    | apply tracks_raise
    | apply tracks_emit
    | apply tracks_perform
    | apply tracks_backup_hosts
    | apply tracks_retry_loop
    | match goal with
      | |- tracks (if ?b then _ else _) => destruct b
      end ].

Lemma tracks_topology_setup env k (args : SetupArgs k) :
  tracks (topology_setup env k args).
Proof.
  destruct k; simpl in args; try destruct args as [[client ipa] trusted];
    try destruct args as [client ipa]; simpl;
    unfold IPATopologyController_topology_setup,
      ADTopologyController_topology_setup,
      IPATrustADTopologyController_topology_setup,
      IPATrustIPATopologyController_topology_setup,
      IPATopologyController_topology_setup_wrapped,
      ADTopologyController_topology_setup_wrapped,
      IPATrustADTopologyController_topology_setup_wrapped,
      IPATrustIPATopologyController_topology_setup_wrapped,
      IPATrustADTopologyController_trust_add;
    unfold_calls; repeat tracks_step.
Qed.

(** X4: whatever the class and whatever the remote side answers, whether the
    setup returns or raises, the only entries of [backup_data] that differ
    after [topology_setup] belong to hosts whose [backup()] was called during
    that setup; a setup that backs up no host leaves the mapping as it was. *)
Theorem setup_writes_only_backed_up_hosts env k (args : SetupArgs k) c tr :
  exists added,
    trace (run (topology_setup env k args) c tr).2 = tr ++ added /\
    (forall i,
       backup_data (ctrl (run (topology_setup env k args) c tr).2) !! i
         <> backup_data c !! i ->
       exists h, host_id h = i /\ HostBackup h ∈ added) /\
    (count is_host_backup added = 0 ->
     backup_data (ctrl (run (topology_setup env k args) c tr).2) = backup_data c).
Proof.
  destruct (tracks_topology_setup env k args {| ctrl := c; trace := tr |})
    as (added & Ht & Hch).
  exists added. split; [exact Ht|]. split; [exact Hch|].
  intros Hnone. apply map_eq. intros i.
  destruct (decide (backup_data (ctrl (run (topology_setup env k args) c tr).2) !! i
                    = backup_data c !! i)) as [Heq|Hne]; [done|].
  destruct (Hch i Hne) as (h & _ & Hin). exfalso.
  unfold count in Hnone. apply length_zero_iff_nil in Hnone.
  assert (Hf : HostBackup h ∈ filter (fun ev => is_host_backup ev = true) added)
    by (by apply list_elem_of_filter).
  rewrite Hnone in Hf. by apply elem_of_nil in Hf.
Qed.

(** X5: no setup renames the controller, replaces its configuration or its
    hosts, or drops a snapshot: after [topology_setup] of any class, returned
    or raised, [name], [multihost] and [hosts] are as before and every host
    that had an entry in [backup_data] still has one. *)
Theorem setup_keeps_configuration env k (args : SetupArgs k) c tr :
  name (ctrl (run (topology_setup env k args) c tr).2) = name c /\
  multihost (ctrl (run (topology_setup env k args) c tr).2) = multihost c /\
  hosts (ctrl (run (topology_setup env k args) c tr).2) = hosts c /\
  forall i,
    is_Some (backup_data c !! i) ->
    is_Some (backup_data (ctrl (run (topology_setup env k args) c tr).2) !! i).
Proof.
  destruct (steps_topology_setup env c k args {| ctrl := c; trace := tr |}
              (same_config_refl c)) as ((Hn & Hm & Hh & _) & Hdom & _).
  repeat split; try done.
  intros i Hi. apply elem_of_dom, Hdom. by apply elem_of_dom.
Qed.

Lemma steps_trust_ipa_backups env c client ipa trusted :
  steps c
    (fun ev =>
       match ev with
       | HostBackup h =>
           bool_decide (host_id h ∈ [host_id ipa; host_id trusted; host_id client])
       | _ => true
       end)
    (IPATrustIPATopologyController_topology_setup env client ipa trusted).
Proof.
  unfold IPATrustIPATopologyController_topology_setup,
    IPATrustIPATopologyController_topology_setup_wrapped.
  steps_auto;
    apply steps_perform; apply bool_decide_eq_true_2; set_solver.
Qed.

(** X6: the IPA-IPA setup takes its snapshots itself, of the three hosts it
    was given: whatever the hosts of the topology are and whatever happens,
    the entry of [backup_data] of any other host is left as it was. *)
Theorem ipa_trust_ipa_writes_three_entries env client ipa trusted c tr i :
  i <> host_id ipa -> i <> host_id trusted -> i <> host_id client ->
  backup_data
    (ctrl (run (IPATrustIPATopologyController_topology_setup env client ipa trusted)
             c tr).2) !! i
  = backup_data c !! i.
Proof.
  intros Hi Ht Hc.
  destruct (tracks_topology_setup env IPATrustIPATopologyController
              (client, ipa, trusted) {| ctrl := c; trace := tr |})
    as (added & Htr & Hch).
  destruct (steps_trust_ipa_backups env c client ipa trusted
              {| ctrl := c; trace := tr |} (same_config_refl c))
    as (_ & _ & added' & Htr' & HP).
  simpl in Htr, Htr', Hch. unfold run.
  rewrite Htr in Htr'. apply app_inv_head in Htr' as <-.
  destruct (decide (backup_data
              (ctrl (IPATrustIPATopologyController_topology_setup env client ipa
                       trusted {| ctrl := c; trace := tr |}).2) !! i
            = backup_data c !! i)) as [Heq|Hne]; [done|].
  destruct (Hch i Hne) as (h & <- & Hin). exfalso.
  rewrite forallb_forall in HP.
  apply list_elem_of_In, HP, bool_decide_eq_true_1 in Hin.
  rewrite !elem_of_cons, elem_of_nil in Hin.
  destruct Hin as [?|[?|[?|[]]]]; congruence.
Qed.

Lemma ipa_trust_ipa_writes_three_entries_witness :
  1 <> host_id Sample.ipa /\ 1 <> host_id Sample.ipa2 /\ 1 <> host_id Sample.ad /\
  backup_data
    (ctrl (run (IPATrustIPATopologyController_topology_setup Sample.env_ok
                  Sample.ad Sample.ipa Sample.ipa2)
             (Sample.controller "ipa-trust-ipa" ∅
                [Sample.client; Sample.ad; Sample.ipa; Sample.ipa2] false) []).2) !! 1
  = backup_data
      (Sample.controller "ipa-trust-ipa" ∅
         [Sample.client; Sample.ad; Sample.ipa; Sample.ipa2] false) !! 1.
Proof.
  split; [discriminate|]. split; [discriminate|]. split; [discriminate|].
  apply (ipa_trust_ipa_writes_three_entries Sample.env_ok
           Sample.ad Sample.ipa Sample.ipa2
           (Sample.controller "ipa-trust-ipa" ∅
              [Sample.client; Sample.ad; Sample.ipa; Sample.ipa2] false) [] 1);
    discriminate.
Defined.

(** ** Running a method call by call *)

Lemma bind_get_self_run {B} (k : Controller -> M B) st :
  bind get_self k st = k (ctrl st) st.
Proof. reflexivity. Qed.

Lemma bind_logger_info_run {B} msg (k : unit -> M B) c tr :
  bind (logger_info msg) k {| ctrl := c; trace := tr |} =
  k tt {| ctrl := c; trace := tr ++ [LogInfo msg] |}.
Proof. reflexivity. Qed.

Lemma bind_kinit_run {B} env h (k : unit -> M B) c tr :
  bind (kinit env h) k {| ctrl := c; trace := tr |} =
  match call_reply env (tr ++ [Kinit h]) with
  | Ret a => k a {| ctrl := c; trace := tr ++ [Kinit h] |}
  | Raise e => (Raise e, {| ctrl := c; trace := tr ++ [Kinit h] |})
  end.
Proof. reflexivity. Qed.


Lemma restore_vanilla_on_error_result {A} (m : M A) st r st1 :
  m st = (r, st1) ->
  restore_vanilla_on_error m st =
  (r, {| ctrl := ctrl st1; trace := trace st1 ++ rollback r |}).
Proof.
  intros Hm. unfold restore_vanilla_on_error, try_except. rewrite Hm.
  destruct r as [a|e], st1 as [c1 tr1]; simpl; [|done].
  by rewrite app_nil_r.
Qed.

(** X7: when [kinit] on the IPA host raises, a non-provisioned IPA-AD (or
    IPA-Samba) setup attempts no trust, enrols nothing and takes no snapshot:
    it rolls back and raises the error of [kinit], with the controller as it
    was. *)
Theorem trust_ad_setup_stops_at_kinit env client ipa trusted c tr e :
  provisioned c = false ->
  call_reply env
    (tr ++ [LogInfo ("Establishing trust between " +:+ domain ipa +:+ " and "
                     +:+ domain trusted);
            Kinit ipa]) = Raise e ->
  run (IPATrustADTopologyController_topology_setup env client ipa trusted) c tr =
  (Raise e,
   {| ctrl := c;
      trace := tr ++ [LogInfo ("Establishing trust between " +:+ domain ipa
                               +:+ " and " +:+ domain trusted);
                      Kinit ipa;
                      RestoreVanilla] |}).
Proof.
  intros Hp Hk. unfold run, IPATrustADTopologyController_topology_setup.
  erewrite restore_vanilla_on_error_result.
  2: { unfold IPATrustADTopologyController_topology_setup_wrapped.
       rewrite bind_get_self_run. cbn [ctrl]. rewrite Hp.
       rewrite bind_logger_info_run, bind_kinit_run.
       rewrite <- app_assoc. cbn [app]. rewrite Hk. reflexivity. }
  cbn [ctrl trace rollback]. by rewrite <- app_assoc.
Qed.

Lemma trust_ad_setup_stops_at_kinit_witness :
  provisioned (Sample.controller "ipa-trust-ad" ∅
                 [Sample.client; Sample.ipa; Sample.ad] false) = false /\
  call_reply Failing.env_no_ticket
    ([] ++ [LogInfo ("Establishing trust between " +:+ domain Sample.ipa
                     +:+ " and " +:+ domain Sample.ad);
            Kinit Sample.ipa])
    = Raise (ProcessError 1 "" "kinit: Password incorrect") /\
  run (IPATrustADTopologyController_topology_setup Failing.env_no_ticket
         Sample.client Sample.ipa Sample.ad)
      (Sample.controller "ipa-trust-ad" ∅
         [Sample.client; Sample.ipa; Sample.ad] false) [] =
  (Raise (ProcessError 1 "" "kinit: Password incorrect"),
   {| ctrl := Sample.controller "ipa-trust-ad" ∅
                [Sample.client; Sample.ipa; Sample.ad] false;
      trace := [] ++ [LogInfo ("Establishing trust between " +:+ domain Sample.ipa
                               +:+ " and " +:+ domain Sample.ad);
                      Kinit Sample.ipa;
                      RestoreVanilla] |}).
Proof.
  split; [reflexivity|]. split; [reflexivity|].
  apply (trust_ad_setup_stops_at_kinit Failing.env_no_ticket
           Sample.client Sample.ipa Sample.ad
           (Sample.controller "ipa-trust-ad" ∅
              [Sample.client; Sample.ipa; Sample.ad] false) []);
    reflexivity.
Defined.





(** ** From initialisation to teardown *)

Lemma setup_already_provisioned env k (args : SetupArgs k) c tr :
  has_topology_setup k = true ->
  provisioned c = true ->
  topology_setup env k args {| ctrl := c; trace := tr |} =
  (Ret tt,
   {| ctrl := c;
      trace := tr ++ [LogInfo ("Topology '" +:+ name c
                               +:+ "' is already provisioned")] |}).
Proof.
  intros Hk Hp.
  destruct k; try discriminate; simpl in args;
    try destruct args as [[client ipa] trusted];
    try destruct args as [client ipa];
    cbn [topology_setup];
    unfold IPATopologyController_topology_setup,
      ADTopologyController_topology_setup,
      IPATrustADTopologyController_topology_setup,
      IPATrustIPATopologyController_topology_setup;
    (erewrite restore_vanilla_on_error_result;
     [|unfold IPATopologyController_topology_setup_wrapped,
         ADTopologyController_topology_setup_wrapped,
         IPATrustADTopologyController_topology_setup_wrapped,
         IPATrustIPATopologyController_topology_setup_wrapped;
       rewrite bind_get_self_run; cbn [ctrl]; rewrite Hp; reflexivity]);
    cbn [ctrl trace rollback]; by rewrite app_nil_r.
Qed.

(** X9: a controller of a class with its own setup that [init] finds named
    in the set of provisioned topologies goes through its whole life without
    touching a host but for the restore: setup, per-test teardown and
    topology teardown in sequence return, issue the already-provisioned log
    line and one [restore_vanilla], and leave the controller as [init] left
    it. *)
Theorem provisioned_lifecycle env super_init self0 k (args : SetupArgs k) tr :
  has_topology_setup k = true ->
  name (super_init (base self0))
    ∈ provisioned_topologies (multihost (super_init (base self0))) ->
  run (topology_setup env k args ;; teardown k ;; topology_teardown k)
      (ProvisionedBackupTopologyController_init super_init self0) tr =
  (Ret tt,
   {| ctrl := ProvisionedBackupTopologyController_init super_init self0;
      trace := tr ++ [LogInfo ("Topology '" +:+ name (super_init (base self0))
                               +:+ "' is already provisioned");
                      RestoreVanilla] |}).
Proof.
  intros Hk Hin.
  assert (Hp : provisioned (ProvisionedBackupTopologyController_init super_init self0)
               = true).
  { simpl. by apply bool_decide_eq_true_2. }
  unfold run, bind at 1.
  rewrite (setup_already_provisioned env k args _ tr Hk Hp).
  unfold teardown, topology_teardown,
    ProvisionedBackupTopologyController_teardown,
    ProvisionedBackupTopologyController_topology_teardown.
  unfold bind at 1. rewrite bind_get_self_run. cbn [ctrl]. rewrite Hp.
  unfold restore_vanilla, emit. cbn [ctrl trace].
  rewrite bind_get_self_run. cbn [ctrl]. rewrite Hp.
  unfold ret. by rewrite <- app_assoc.
Qed.

Lemma provisioned_lifecycle_witness :
  has_topology_setup SambaTopologyController = true /\
  name (Lifecycle.super_init
          (base (ProvisionedBackupTopologyController___init__ Lifecycle.constructed)))
    ∈ provisioned_topologies
        (multihost
           (Lifecycle.super_init
              (base (ProvisionedBackupTopologyController___init__
                       Lifecycle.constructed)))) /\
  run (topology_setup Sample.env_denied SambaTopologyController
         (Sample.client, Sample.ad) ;;
       teardown SambaTopologyController ;;
       topology_teardown SambaTopologyController)
      (ProvisionedBackupTopologyController_init Lifecycle.super_init
         (ProvisionedBackupTopologyController___init__ Lifecycle.constructed)) [] =
  (Ret tt,
   {| ctrl := ProvisionedBackupTopologyController_init Lifecycle.super_init
                (ProvisionedBackupTopologyController___init__ Lifecycle.constructed);
      trace := [] ++ [LogInfo ("Topology '"
                               +:+ name (Lifecycle.super_init
                                           (base (ProvisionedBackupTopologyController___init__
                                                    Lifecycle.constructed)))
                               +:+ "' is already provisioned");
                      RestoreVanilla] |}).
Proof.
  assert (Hin : "samba" ∈ ({["samba"; "ipa"]} : gset string))
    by (apply elem_of_union; left; by apply elem_of_singleton_2).
  split; [reflexivity|]. split; [exact Hin|].
  apply (provisioned_lifecycle Sample.env_denied Lifecycle.super_init
           (ProvisionedBackupTopologyController___init__ Lifecycle.constructed)
           SambaTopologyController (Sample.client, Sample.ad) []).
  - reflexivity.
  - exact Hin.
Defined.
